(** * Socket utility for the MorgHTTPClient plugin: a shallow embedding

    Source: [src/utilities/socket_data.py].  The class [Socket] issues
    blocking HTTP GET requests against four endpoints of a local service
    and projects fields out of the parsed JSON bodies.

    The embedding is a state-and-exception monad over a [World] that
    carries the two things the program cannot decide by itself -- what
    the network answers to the n-th request and what the clock shows at
    the n-th reading -- together with what the program leaves behind:
    the requests it sent and the lines it printed. *)

From Stdlib Require Import ZArith List String Ascii Bool Arith Lia DecimalString
  DecimalPos Sorted.
Import ListNotations.
Local Open Scope string_scope.
Local Open Scope Z_scope.
Set Warnings "-register-all".

(** ** Python values and exceptions *)

Module Py.

(** Parsed JSON, as [response.json()] hands it to the program.  Numbers
    are the integral ones (Python [int]); a [dict] is an association
    list of distinct keys, read by its first binding of a key. *)
Inductive JSON : Type :=
| JNull : JSON
| JBool : bool -> JSON
| JInt : Z -> JSON
| JStr : string -> JSON
| JList : list JSON -> JSON
| JDict : list (string * JSON) -> JSON.

(** The classes of [requests.exceptions] that [requests.get] raises. *)
Inductive RequestsExc : Type :=
| ConnectionError
| ProxyError
| SSLError
| ConnectTimeout
| ReadTimeout
| TooManyRedirects
| ChunkedEncodingError
| ContentDecodingError.

(** [isinstance(e, requests.exceptions.ConnectionError)]: the class
    itself and its subclasses [ProxyError], [SSLError] and
    [ConnectTimeout(ConnectionError, Timeout)].  [ReadTimeout] derives
    from [Timeout] alone. *)
Definition is_ConnectionError (e : RequestsExc) : bool :=
  match e with
  | ConnectionError | ProxyError | SSLError | ConnectTimeout => true
  | ReadTimeout | TooManyRedirects | ChunkedEncodingError
  | ContentDecodingError => false
  end.

(** [isinstance(e, requests.exceptions.Timeout)]. *)
Definition is_Timeout (e : RequestsExc) : bool :=
  match e with
  | ConnectTimeout | ReadTimeout => true
  | _ => false
  end.

(** Exceptions that travel through the program.  [SocketError] is the
    class of the source, with its two private fields. *)
Inductive Exc : Type :=
| SocketError (error_message endpoint : string)
| RequestException (e : RequestsExc)
| JSONDecodeError
| StopIteration
| KeyError (key : string)
| TypeError
| ValueError
| AttributeError.

(** The outcome of evaluating an expression: a value or a raised
    exception. *)
Inductive Result (A : Type) : Type :=
| Ret : A -> Result A
| Raise : Exc -> Result A.
Arguments Ret {A} _.
Arguments Raise {A} _.

Definition rbind {A B} (r : Result A) (k : A -> Result B) : Result B :=
  match r with
  | Ret a => k a
  | Raise e => Raise e
  end.

(** *** Strings *)

(** A Python [str] is a sequence of code points.  It is held here as
    its UTF-8 encoding, a surrogate being encoded like any other code
    point of its range, so that text in ASCII reads as itself. *)

Definition chars (s : string) : list ascii := list_ascii_of_string s.
Definition str_of (l : list ascii) : string := string_of_list_ascii l.

Local Open Scope N_scope.

Definition code (c : ascii) : N := N_of_ascii c.
Definition byte (n : N) : ascii := ascii_of_N n.

(** What a byte opens when no sequence is pending: a code point of its
    own, or a sequence with the bits it brings and the number of bytes
    to come. *)
Definition opens (n : N) : list N * option (N * nat) :=
  if n <? 192 then ([n], None)
  else if n <? 224 then ([], Some (n - 192, 1%nat))
  else if n <? 240 then ([], Some (n - 224, 2%nat))
  else if n <? 248 then ([], Some (n - 240, 3%nat))
  else ([n], None).

(** The code points of a sequence of bytes. *)
Fixpoint decode_from (pending : option (N * nat)) (l : list ascii)
  : list N :=
  match l with
  | [] =>
      match pending with
      | None => []
      | Some (acc, _) => [acc]
      end
  | b :: r =>
      let n := code b in
      match pending with
      | Some (acc, more) =>
          if (128 <=? n) && (n <? 192) then
            let acc := 64 * acc + (n - 128) in
            match more with
            | S (S more) => decode_from (Some (acc, S more)) r
            | _ => acc :: decode_from None r
            end
          else acc :: fst (opens n) ++ decode_from (snd (opens n)) r
      | None => fst (opens n) ++ decode_from (snd (opens n)) r
      end
  end.

(** The bytes of a code point. *)
Definition encode (c : N) : list ascii :=
  if c <? 128 then [byte c]
  else if c <? 2048 then [byte (192 + c / 64); byte (128 + c mod 64)]
  else if c <? 65536 then
    [byte (224 + c / 4096); byte (128 + (c / 64) mod 64);
     byte (128 + c mod 64)]
  else
    [byte (240 + c / 262144); byte (128 + (c / 4096) mod 64);
     byte (128 + (c / 64) mod 64); byte (128 + c mod 64)].

Definition points (s : string) : list N := decode_from None (chars s).
Definition of_points (l : list N) : string := str_of (flat_map encode l).

(** **** The case tables of the interpreter (CPython 3.11, Unicode 14) *)

(** Simple lowercase mappings: a run (first, last, step, image) maps the
    code points first, first + step, ..., last onto image, image + step,
    ... *)
Definition lower_runs : list (N * N * N * N) :=
  [(65, 90, 1, 97); (192, 214, 1, 224); (216, 222, 1, 248);
   (256, 302, 2, 257); (306, 310, 2, 307); (313, 327, 2, 314);
   (330, 374, 2, 331); (376, 376, 1, 255); (377, 381, 2, 378);
   (385, 385, 1, 595); (386, 388, 2, 387); (390, 390, 1, 596);
   (391, 391, 1, 392); (393, 394, 1, 598); (395, 395, 1, 396);
   (398, 398, 1, 477); (399, 399, 1, 601); (400, 400, 1, 603);
   (401, 401, 1, 402); (403, 403, 1, 608); (404, 404, 1, 611);
   (406, 406, 1, 617); (407, 407, 1, 616); (408, 408, 1, 409);
   (412, 412, 1, 623); (413, 413, 1, 626); (415, 415, 1, 629);
   (416, 420, 2, 417); (422, 422, 1, 640); (423, 423, 1, 424);
   (425, 425, 1, 643); (428, 428, 1, 429); (430, 430, 1, 648);
   (431, 431, 1, 432); (433, 434, 1, 650); (435, 437, 2, 436);
   (439, 439, 1, 658); (440, 440, 1, 441); (444, 444, 1, 445);
   (452, 452, 1, 454); (453, 453, 1, 454); (455, 455, 1, 457);
   (456, 456, 1, 457); (458, 458, 1, 460); (459, 475, 2, 460);
   (478, 494, 2, 479); (497, 497, 1, 499); (498, 500, 2, 499);
   (502, 502, 1, 405); (503, 503, 1, 447); (504, 542, 2, 505);
   (544, 544, 1, 414); (546, 562, 2, 547); (570, 570, 1, 11365);
   (571, 571, 1, 572); (573, 573, 1, 410); (574, 574, 1, 11366);
   (577, 577, 1, 578); (579, 579, 1, 384); (580, 580, 1, 649);
   (581, 581, 1, 652); (582, 590, 2, 583); (880, 882, 2, 881);
   (886, 886, 1, 887); (895, 895, 1, 1011); (902, 902, 1, 940);
   (904, 906, 1, 941); (908, 908, 1, 972); (910, 911, 1, 973);
   (913, 929, 1, 945); (931, 939, 1, 963); (975, 975, 1, 983);
   (984, 1006, 2, 985); (1012, 1012, 1, 952); (1015, 1015, 1, 1016);
   (1017, 1017, 1, 1010); (1018, 1018, 1, 1019); (1021, 1023, 1, 891);
   (1024, 1039, 1, 1104); (1040, 1071, 1, 1072); (1120, 1152, 2, 1121);
   (1162, 1214, 2, 1163); (1216, 1216, 1, 1231); (1217, 1229, 2, 1218);
   (1232, 1326, 2, 1233); (1329, 1366, 1, 1377); (4256, 4293, 1, 11520);
   (4295, 4295, 1, 11559); (4301, 4301, 1, 11565); (5024, 5103, 1, 43888);
   (5104, 5109, 1, 5112); (7312, 7354, 1, 4304); (7357, 7359, 1, 4349);
   (7680, 7828, 2, 7681); (7838, 7838, 1, 223); (7840, 7934, 2, 7841);
   (7944, 7951, 1, 7936); (7960, 7965, 1, 7952); (7976, 7983, 1, 7968);
   (7992, 7999, 1, 7984); (8008, 8013, 1, 8000); (8025, 8031, 2, 8017);
   (8040, 8047, 1, 8032); (8072, 8079, 1, 8064); (8088, 8095, 1, 8080);
   (8104, 8111, 1, 8096); (8120, 8121, 1, 8112); (8122, 8123, 1, 8048);
   (8124, 8124, 1, 8115); (8136, 8139, 1, 8050); (8140, 8140, 1, 8131);
   (8152, 8153, 1, 8144); (8154, 8155, 1, 8054); (8168, 8169, 1, 8160);
   (8170, 8171, 1, 8058); (8172, 8172, 1, 8165); (8184, 8185, 1, 8056);
   (8186, 8187, 1, 8060); (8188, 8188, 1, 8179); (8486, 8486, 1, 969);
   (8490, 8490, 1, 107); (8491, 8491, 1, 229); (8498, 8498, 1, 8526);
   (8544, 8559, 1, 8560); (8579, 8579, 1, 8580); (9398, 9423, 1, 9424);
   (11264, 11311, 1, 11312); (11360, 11360, 1, 11361);
   (11362, 11362, 1, 619); (11363, 11363, 1, 7549); (11364, 11364, 1, 637);
   (11367, 11371, 2, 11368); (11373, 11373, 1, 593); (11374, 11374, 1, 625);
   (11375, 11375, 1, 592); (11376, 11376, 1, 594); (11378, 11378, 1, 11379);
   (11381, 11381, 1, 11382); (11390, 11391, 1, 575);
   (11392, 11490, 2, 11393); (11499, 11501, 2, 11500);
   (11506, 11506, 1, 11507); (42560, 42604, 2, 42561);
   (42624, 42650, 2, 42625); (42786, 42798, 2, 42787);
   (42802, 42862, 2, 42803); (42873, 42875, 2, 42874);
   (42877, 42877, 1, 7545); (42878, 42886, 2, 42879);
   (42891, 42891, 1, 42892); (42893, 42893, 1, 613);
   (42896, 42898, 2, 42897); (42902, 42920, 2, 42903);
   (42922, 42922, 1, 614); (42923, 42923, 1, 604); (42924, 42924, 1, 609);
   (42925, 42925, 1, 620); (42926, 42926, 1, 618); (42928, 42928, 1, 670);
   (42929, 42929, 1, 647); (42930, 42930, 1, 669); (42931, 42931, 1, 43859);
   (42932, 42946, 2, 42933); (42948, 42948, 1, 42900);
   (42949, 42949, 1, 642); (42950, 42950, 1, 7566); (42951, 42953, 2, 42952);
   (42960, 42960, 1, 42961); (42966, 42968, 2, 42967);
   (42997, 42997, 1, 42998); (65313, 65338, 1, 65345);
   (66560, 66599, 1, 66600); (66736, 66771, 1, 66776);
   (66928, 66938, 1, 66967); (66940, 66954, 1, 66979);
   (66956, 66962, 1, 66995); (66964, 66965, 1, 67003);
   (68736, 68786, 1, 68800); (71840, 71871, 1, 71872);
   (93760, 93791, 1, 93792); (125184, 125217, 1, 125218)].

(** The code points whose lowercase is more than one code point. *)
Definition lower_special : list (N * list N) :=
  [(304, [105; 775])].

(** Simple titlecase mappings, as runs. *)
Definition title_runs : list (N * N * N * N) :=
  [(97, 122, 1, 65); (181, 181, 1, 924); (224, 246, 1, 192);
   (248, 254, 1, 216); (255, 255, 1, 376); (257, 303, 2, 256);
   (305, 305, 1, 73); (307, 311, 2, 306); (314, 328, 2, 313);
   (331, 375, 2, 330); (378, 382, 2, 377); (383, 383, 1, 83);
   (384, 384, 1, 579); (387, 389, 2, 386); (392, 392, 1, 391);
   (396, 396, 1, 395); (402, 402, 1, 401); (405, 405, 1, 502);
   (409, 409, 1, 408); (410, 410, 1, 573); (414, 414, 1, 544);
   (417, 421, 2, 416); (424, 424, 1, 423); (429, 429, 1, 428);
   (432, 432, 1, 431); (436, 438, 2, 435); (441, 441, 1, 440);
   (445, 445, 1, 444); (447, 447, 1, 503); (452, 452, 1, 453);
   (454, 454, 1, 453); (455, 455, 1, 456); (457, 457, 1, 456);
   (458, 458, 1, 459); (460, 476, 2, 459); (477, 477, 1, 398);
   (479, 495, 2, 478); (497, 497, 1, 498); (499, 501, 2, 498);
   (505, 543, 2, 504); (547, 563, 2, 546); (572, 572, 1, 571);
   (575, 576, 1, 11390); (578, 578, 1, 577); (583, 591, 2, 582);
   (592, 592, 1, 11375); (593, 593, 1, 11373); (594, 594, 1, 11376);
   (595, 595, 1, 385); (596, 596, 1, 390); (598, 599, 1, 393);
   (601, 601, 1, 399); (603, 603, 1, 400); (604, 604, 1, 42923);
   (608, 608, 1, 403); (609, 609, 1, 42924); (611, 611, 1, 404);
   (613, 613, 1, 42893); (614, 614, 1, 42922); (616, 616, 1, 407);
   (617, 617, 1, 406); (618, 618, 1, 42926); (619, 619, 1, 11362);
   (620, 620, 1, 42925); (623, 623, 1, 412); (625, 625, 1, 11374);
   (626, 626, 1, 413); (629, 629, 1, 415); (637, 637, 1, 11364);
   (640, 640, 1, 422); (642, 642, 1, 42949); (643, 643, 1, 425);
   (647, 647, 1, 42929); (648, 648, 1, 430); (649, 649, 1, 580);
   (650, 651, 1, 433); (652, 652, 1, 581); (658, 658, 1, 439);
   (669, 669, 1, 42930); (670, 670, 1, 42928); (837, 837, 1, 921);
   (881, 883, 2, 880); (887, 887, 1, 886); (891, 893, 1, 1021);
   (940, 940, 1, 902); (941, 943, 1, 904); (945, 961, 1, 913);
   (962, 962, 1, 931); (963, 971, 1, 931); (972, 972, 1, 908);
   (973, 974, 1, 910); (976, 976, 1, 914); (977, 977, 1, 920);
   (981, 981, 1, 934); (982, 982, 1, 928); (983, 983, 1, 975);
   (985, 1007, 2, 984); (1008, 1008, 1, 922); (1009, 1009, 1, 929);
   (1010, 1010, 1, 1017); (1011, 1011, 1, 895); (1013, 1013, 1, 917);
   (1016, 1016, 1, 1015); (1019, 1019, 1, 1018); (1072, 1103, 1, 1040);
   (1104, 1119, 1, 1024); (1121, 1153, 2, 1120); (1163, 1215, 2, 1162);
   (1218, 1230, 2, 1217); (1231, 1231, 1, 1216); (1233, 1327, 2, 1232);
   (1377, 1414, 1, 1329); (5112, 5117, 1, 5104); (7296, 7296, 1, 1042);
   (7297, 7297, 1, 1044); (7298, 7298, 1, 1054); (7299, 7300, 1, 1057);
   (7301, 7301, 1, 1058); (7302, 7302, 1, 1066); (7303, 7303, 1, 1122);
   (7304, 7304, 1, 42570); (7545, 7545, 1, 42877); (7549, 7549, 1, 11363);
   (7566, 7566, 1, 42950); (7681, 7829, 2, 7680); (7835, 7835, 1, 7776);
   (7841, 7935, 2, 7840); (7936, 7943, 1, 7944); (7952, 7957, 1, 7960);
   (7968, 7975, 1, 7976); (7984, 7991, 1, 7992); (8000, 8005, 1, 8008);
   (8017, 8023, 2, 8025); (8032, 8039, 1, 8040); (8048, 8049, 1, 8122);
   (8050, 8053, 1, 8136); (8054, 8055, 1, 8154); (8056, 8057, 1, 8184);
   (8058, 8059, 1, 8170); (8060, 8061, 1, 8186); (8064, 8071, 1, 8072);
   (8080, 8087, 1, 8088); (8096, 8103, 1, 8104); (8112, 8113, 1, 8120);
   (8115, 8115, 1, 8124); (8126, 8126, 1, 921); (8131, 8131, 1, 8140);
   (8144, 8145, 1, 8152); (8160, 8161, 1, 8168); (8165, 8165, 1, 8172);
   (8179, 8179, 1, 8188); (8526, 8526, 1, 8498); (8560, 8575, 1, 8544);
   (8580, 8580, 1, 8579); (9424, 9449, 1, 9398); (11312, 11359, 1, 11264);
   (11361, 11361, 1, 11360); (11365, 11365, 1, 570); (11366, 11366, 1, 574);
   (11368, 11372, 2, 11367); (11379, 11379, 1, 11378);
   (11382, 11382, 1, 11381); (11393, 11491, 2, 11392);
   (11500, 11502, 2, 11499); (11507, 11507, 1, 11506);
   (11520, 11557, 1, 4256); (11559, 11559, 1, 4295); (11565, 11565, 1, 4301);
   (42561, 42605, 2, 42560); (42625, 42651, 2, 42624);
   (42787, 42799, 2, 42786); (42803, 42863, 2, 42802);
   (42874, 42876, 2, 42873); (42879, 42887, 2, 42878);
   (42892, 42892, 1, 42891); (42897, 42899, 2, 42896);
   (42900, 42900, 1, 42948); (42903, 42921, 2, 42902);
   (42933, 42947, 2, 42932); (42952, 42954, 2, 42951);
   (42961, 42961, 1, 42960); (42967, 42969, 2, 42966);
   (42998, 42998, 1, 42997); (43859, 43859, 1, 42931);
   (43888, 43967, 1, 5024); (65345, 65370, 1, 65313);
   (66600, 66639, 1, 66560); (66776, 66811, 1, 66736);
   (66967, 66977, 1, 66928); (66979, 66993, 1, 66940);
   (66995, 67001, 1, 66956); (67003, 67004, 1, 66964);
   (68800, 68850, 1, 68736); (71872, 71903, 1, 71840);
   (93792, 93823, 1, 93760); (125218, 125251, 1, 125184)].

(** The code points whose titlecase is more than one code point. *)
Definition title_special : list (N * list N) :=
  [(223, [83; 115]); (329, [700; 78]); (496, [74; 780]);
   (912, [921; 776; 769]); (944, [933; 776; 769]); (1415, [1333; 1410]);
   (7830, [72; 817]); (7831, [84; 776]); (7832, [87; 778]);
   (7833, [89; 778]); (7834, [65; 702]); (8016, [933; 787]);
   (8018, [933; 787; 768]); (8020, [933; 787; 769]); (8022, [933; 787; 834]);
   (8114, [8122; 837]); (8116, [902; 837]); (8118, [913; 834]);
   (8119, [913; 834; 837]); (8130, [8138; 837]); (8132, [905; 837]);
   (8134, [919; 834]); (8135, [919; 834; 837]); (8146, [921; 776; 768]);
   (8147, [921; 776; 769]); (8150, [921; 834]); (8151, [921; 776; 834]);
   (8162, [933; 776; 768]); (8163, [933; 776; 769]); (8164, [929; 787]);
   (8166, [933; 834]); (8167, [933; 776; 834]); (8178, [8186; 837]);
   (8180, [911; 837]); (8182, [937; 834]); (8183, [937; 834; 837]);
   (64256, [70; 102]); (64257, [70; 105]); (64258, [70; 108]);
   (64259, [70; 102; 105]); (64260, [70; 102; 108]); (64261, [83; 116]);
   (64262, [83; 116]); (64275, [1348; 1398]); (64276, [1348; 1381]);
   (64277, [1348; 1387]); (64278, [1358; 1398]); (64279, [1348; 1389])].

(** The case-ignorable code points, as ranges (first, last). *)
Definition case_ignorable_ranges : list (N * N) :=
  [(39, 39); (46, 46); (58, 58); (94, 94); (96, 96); (168, 168); (173, 173);
   (175, 175); (180, 180); (183, 184); (688, 879); (884, 885); (890, 890);
   (900, 901); (903, 903); (1155, 1161); (1369, 1369); (1375, 1375);
   (1425, 1469); (1471, 1471); (1473, 1474); (1476, 1477); (1479, 1479);
   (1524, 1524); (1536, 1541); (1552, 1562); (1564, 1564); (1600, 1600);
   (1611, 1631); (1648, 1648); (1750, 1757); (1759, 1768); (1770, 1773);
   (1807, 1807); (1809, 1809); (1840, 1866); (1958, 1968); (2027, 2037);
   (2042, 2042); (2045, 2045); (2070, 2093); (2137, 2139); (2184, 2184);
   (2192, 2193); (2200, 2207); (2249, 2306); (2362, 2362); (2364, 2364);
   (2369, 2376); (2381, 2381); (2385, 2391); (2402, 2403); (2417, 2417);
   (2433, 2433); (2492, 2492); (2497, 2500); (2509, 2509); (2530, 2531);
   (2558, 2558); (2561, 2562); (2620, 2620); (2625, 2626); (2631, 2632);
   (2635, 2637); (2641, 2641); (2672, 2673); (2677, 2677); (2689, 2690);
   (2748, 2748); (2753, 2757); (2759, 2760); (2765, 2765); (2786, 2787);
   (2810, 2815); (2817, 2817); (2876, 2876); (2879, 2879); (2881, 2884);
   (2893, 2893); (2901, 2902); (2914, 2915); (2946, 2946); (3008, 3008);
   (3021, 3021); (3072, 3072); (3076, 3076); (3132, 3132); (3134, 3136);
   (3142, 3144); (3146, 3149); (3157, 3158); (3170, 3171); (3201, 3201);
   (3260, 3260); (3263, 3263); (3270, 3270); (3276, 3277); (3298, 3299);
   (3328, 3329); (3387, 3388); (3393, 3396); (3405, 3405); (3426, 3427);
   (3457, 3457); (3530, 3530); (3538, 3540); (3542, 3542); (3633, 3633);
   (3636, 3642); (3654, 3662); (3761, 3761); (3764, 3772); (3782, 3782);
   (3784, 3789); (3864, 3865); (3893, 3893); (3895, 3895); (3897, 3897);
   (3953, 3966); (3968, 3972); (3974, 3975); (3981, 3991); (3993, 4028);
   (4038, 4038); (4141, 4144); (4146, 4151); (4153, 4154); (4157, 4158);
   (4184, 4185); (4190, 4192); (4209, 4212); (4226, 4226); (4229, 4230);
   (4237, 4237); (4253, 4253); (4348, 4348); (4957, 4959); (5906, 5908);
   (5938, 5939); (5970, 5971); (6002, 6003); (6068, 6069); (6071, 6077);
   (6086, 6086); (6089, 6099); (6103, 6103); (6109, 6109); (6155, 6159);
   (6211, 6211); (6277, 6278); (6313, 6313); (6432, 6434); (6439, 6440);
   (6450, 6450); (6457, 6459); (6679, 6680); (6683, 6683); (6742, 6742);
   (6744, 6750); (6752, 6752); (6754, 6754); (6757, 6764); (6771, 6780);
   (6783, 6783); (6823, 6823); (6832, 6862); (6912, 6915); (6964, 6964);
   (6966, 6970); (6972, 6972); (6978, 6978); (7019, 7027); (7040, 7041);
   (7074, 7077); (7080, 7081); (7083, 7085); (7142, 7142); (7144, 7145);
   (7149, 7149); (7151, 7153); (7212, 7219); (7222, 7223); (7288, 7293);
   (7376, 7378); (7380, 7392); (7394, 7400); (7405, 7405); (7412, 7412);
   (7416, 7417); (7468, 7530); (7544, 7544); (7579, 7679); (8125, 8125);
   (8127, 8129); (8141, 8143); (8157, 8159); (8173, 8175); (8189, 8190);
   (8203, 8207); (8216, 8217); (8228, 8228); (8231, 8231); (8234, 8238);
   (8288, 8292); (8294, 8303); (8305, 8305); (8319, 8319); (8336, 8348);
   (8400, 8432); (11388, 11389); (11503, 11505); (11631, 11631);
   (11647, 11647); (11744, 11775); (11823, 11823); (12293, 12293);
   (12330, 12333); (12337, 12341); (12347, 12347); (12441, 12446);
   (12540, 12542); (40981, 40981); (42232, 42237); (42508, 42508);
   (42607, 42610); (42612, 42621); (42623, 42623); (42652, 42655);
   (42736, 42737); (42752, 42785); (42864, 42864); (42888, 42890);
   (42994, 42996); (43000, 43001); (43010, 43010); (43014, 43014);
   (43019, 43019); (43045, 43046); (43052, 43052); (43204, 43205);
   (43232, 43249); (43263, 43263); (43302, 43309); (43335, 43345);
   (43392, 43394); (43443, 43443); (43446, 43449); (43452, 43453);
   (43471, 43471); (43493, 43494); (43561, 43566); (43569, 43570);
   (43573, 43574); (43587, 43587); (43596, 43596); (43632, 43632);
   (43644, 43644); (43696, 43696); (43698, 43700); (43703, 43704);
   (43710, 43711); (43713, 43713); (43741, 43741); (43756, 43757);
   (43763, 43764); (43766, 43766); (43867, 43871); (43881, 43883);
   (44005, 44005); (44008, 44008); (44013, 44013); (64286, 64286);
   (64434, 64450); (65024, 65039); (65043, 65043); (65056, 65071);
   (65106, 65106); (65109, 65109); (65279, 65279); (65287, 65287);
   (65294, 65294); (65306, 65306); (65342, 65342); (65344, 65344);
   (65392, 65392); (65438, 65439); (65507, 65507); (65529, 65531);
   (66045, 66045); (66272, 66272); (66422, 66426); (67456, 67461);
   (67463, 67504); (67506, 67514); (68097, 68099); (68101, 68102);
   (68108, 68111); (68152, 68154); (68159, 68159); (68325, 68326);
   (68900, 68903); (69291, 69292); (69446, 69456); (69506, 69509);
   (69633, 69633); (69688, 69702); (69744, 69744); (69747, 69748);
   (69759, 69761); (69811, 69814); (69817, 69818); (69821, 69821);
   (69826, 69826); (69837, 69837); (69888, 69890); (69927, 69931);
   (69933, 69940); (70003, 70003); (70016, 70017); (70070, 70078);
   (70089, 70092); (70095, 70095); (70191, 70193); (70196, 70196);
   (70198, 70199); (70206, 70206); (70367, 70367); (70371, 70378);
   (70400, 70401); (70459, 70460); (70464, 70464); (70502, 70508);
   (70512, 70516); (70712, 70719); (70722, 70724); (70726, 70726);
   (70750, 70750); (70835, 70840); (70842, 70842); (70847, 70848);
   (70850, 70851); (71090, 71093); (71100, 71101); (71103, 71104);
   (71132, 71133); (71219, 71226); (71229, 71229); (71231, 71232);
   (71339, 71339); (71341, 71341); (71344, 71349); (71351, 71351);
   (71453, 71455); (71458, 71461); (71463, 71467); (71727, 71735);
   (71737, 71738); (71995, 71996); (71998, 71998); (72003, 72003);
   (72148, 72151); (72154, 72155); (72160, 72160); (72193, 72202);
   (72243, 72248); (72251, 72254); (72263, 72263); (72273, 72278);
   (72281, 72283); (72330, 72342); (72344, 72345); (72752, 72758);
   (72760, 72765); (72767, 72767); (72850, 72871); (72874, 72880);
   (72882, 72883); (72885, 72886); (73009, 73014); (73018, 73018);
   (73020, 73021); (73023, 73029); (73031, 73031); (73104, 73105);
   (73109, 73109); (73111, 73111); (73459, 73460); (78896, 78904);
   (92912, 92916); (92976, 92982); (92992, 92995); (94031, 94031);
   (94095, 94111); (94176, 94177); (94179, 94180); (110576, 110579);
   (110581, 110587); (110589, 110590); (113821, 113822); (113824, 113827);
   (118528, 118573); (118576, 118598); (119143, 119145); (119155, 119170);
   (119173, 119179); (119210, 119213); (119362, 119364); (121344, 121398);
   (121403, 121452); (121461, 121461); (121476, 121476); (121499, 121503);
   (121505, 121519); (122880, 122886); (122888, 122904); (122907, 122913);
   (122915, 122916); (122918, 122922); (123184, 123197); (123566, 123566);
   (123628, 123631); (125136, 125142); (125252, 125259); (127995, 127999);
   (917505, 917505); (917536, 917631); (917760, 917999)].

(** The cased code points that are not case-ignorable, as ranges. *)
Definition cased_ranges : list (N * N) :=
  [(65, 90); (97, 122); (170, 170); (181, 181); (186, 186); (192, 214);
   (216, 246); (248, 442); (444, 447); (452, 659); (661, 687); (880, 883);
   (886, 887); (891, 893); (895, 895); (902, 902); (904, 906); (908, 908);
   (910, 929); (931, 1013); (1015, 1153); (1162, 1327); (1329, 1366);
   (1376, 1416); (4256, 4293); (4295, 4295); (4301, 4301); (4304, 4346);
   (4349, 4351); (5024, 5109); (5112, 5117); (7296, 7304); (7312, 7354);
   (7357, 7359); (7424, 7467); (7531, 7543); (7545, 7578); (7680, 7957);
   (7960, 7965); (7968, 8005); (8008, 8013); (8016, 8023); (8025, 8025);
   (8027, 8027); (8029, 8029); (8031, 8061); (8064, 8116); (8118, 8124);
   (8126, 8126); (8130, 8132); (8134, 8140); (8144, 8147); (8150, 8155);
   (8160, 8172); (8178, 8180); (8182, 8188); (8450, 8450); (8455, 8455);
   (8458, 8467); (8469, 8469); (8473, 8477); (8484, 8484); (8486, 8486);
   (8488, 8488); (8490, 8493); (8495, 8500); (8505, 8505); (8508, 8511);
   (8517, 8521); (8526, 8526); (8544, 8575); (8579, 8580); (9398, 9449);
   (11264, 11387); (11390, 11492); (11499, 11502); (11506, 11507);
   (11520, 11557); (11559, 11559); (11565, 11565); (42560, 42605);
   (42624, 42651); (42786, 42863); (42865, 42887); (42891, 42894);
   (42896, 42954); (42960, 42961); (42963, 42963); (42965, 42969);
   (42997, 42998); (43002, 43002); (43824, 43866); (43872, 43880);
   (43888, 43967); (64256, 64262); (64275, 64279); (65313, 65338);
   (65345, 65370); (66560, 66639); (66736, 66771); (66776, 66811);
   (66928, 66938); (66940, 66954); (66956, 66962); (66964, 66965);
   (66967, 66977); (66979, 66993); (66995, 67001); (67003, 67004);
   (68736, 68786); (68800, 68850); (71840, 71903); (93760, 93823);
   (119808, 119892); (119894, 119964); (119966, 119967); (119970, 119970);
   (119973, 119974); (119977, 119980); (119982, 119993); (119995, 119995);
   (119997, 120003); (120005, 120069); (120071, 120074); (120077, 120084);
   (120086, 120092); (120094, 120121); (120123, 120126); (120128, 120132);
   (120134, 120134); (120138, 120144); (120146, 120485); (120488, 120512);
   (120514, 120538); (120540, 120570); (120572, 120596); (120598, 120628);
   (120630, 120654); (120656, 120686); (120688, 120712); (120714, 120744);
   (120746, 120770); (120772, 120779); (122624, 122633); (122635, 122654);
   (125184, 125251); (127280, 127305); (127312, 127337); (127344, 127369)].

(** The whitespace code points above ASCII. *)
Definition unicode_spaces : list N :=
  [133; 160; 5760; 8192; 8193; 8194; 8195; 8196; 8197; 8198; 8199; 8200;
   8201; 8202; 8232; 8233; 8239; 8287; 12288].

(** The code points of value 0 of the decimal digits above ASCII; the
    nine that follow each have the values 1 to 9. *)
Definition decimal_zeros : list N :=
  [1632; 1776; 1984; 2406; 2534; 2662; 2790; 2918; 3046; 3174; 3302; 3430;
   3558; 3664; 3792; 3872; 4160; 4240; 6112; 6160; 6470; 6608; 6784; 6800;
   6992; 7088; 7232; 7248; 42528; 43216; 43264; 43472; 43504; 43600; 44016;
   65296; 66720; 68912; 69734; 69872; 69942; 70096; 70384; 70736; 70864;
   71248; 71360; 71472; 71904; 72016; 72784; 73040; 73120; 92768; 92864;
   93008; 120782; 120792; 120802; 120812; 120822; 123200; 123632; 125264;
   130032].

(** The image of a code point under a table of runs. *)
Fixpoint run_image (c : N) (runs : list (N * N * N * N)) : option N :=
  match runs with
  | [] => None
  | (first, last, step, image) :: rest =>
      if (first <=? c) && (c <=? last) && ((c - first) mod step =? 0)
      then Some (image + (c - first))
      else run_image c rest
  end.

Fixpoint special_image (c : N) (table : list (N * list N))
  : option (list N) :=
  match table with
  | [] => None
  | (k, image) :: rest =>
      if c =? k then Some image else special_image c rest
  end.

Definition in_ranges (c : N) (ranges : list (N * N)) : bool :=
  existsb (fun r => (fst r <=? c) && (c <=? snd r)) ranges.

(** The full lowercase and titlecase of a code point. *)
Definition lower_full (c : N) : list N :=
  match special_image c lower_special with
  | Some image => image
  | None =>
      match run_image c lower_runs with
      | Some image => [image]
      | None => [c]
      end
  end.

Definition title_full (c : N) : list N :=
  match special_image c title_special with
  | Some image => image
  | None =>
      match run_image c title_runs with
      | Some image => [image]
      | None => [c]
      end
  end.

Definition case_ignorable (c : N) : bool := in_ranges c case_ignorable_ranges.
Definition cased (c : N) : bool := in_ranges c cased_ranges.

(** Whether the first code point that is not case-ignorable is cased;
    [None] when every code point is case-ignorable. *)
Fixpoint next_cased (l : list N) : option bool :=
  match l with
  | [] => None
  | c :: r => if case_ignorable c then next_cased r else Some (cased c)
  end.

(** The context in which a capital sigma becomes a final sigma: a cased
    letter before it, none after it, case-ignorable ones aside.
    [before] runs from the sigma backwards. *)
Definition final_sigma (before after : list N) : bool :=
  match next_cased before with
  | Some true =>
      match next_cased after with
      | Some true => false
      | _ => true
      end
  | _ => false
  end.

(** The lowercase of a code point where it stands. *)
Definition lower_at (before : list N) (c : N) (after : list N) : list N :=
  if c =? 931 then [if final_sigma before after then 962 else 963]
  else lower_full c.

Fixpoint lower_from (before : list N) (l : list N) : list N :=
  match l with
  | [] => []
  | c :: r => (lower_at before c r ++ lower_from (c :: before) r)%list
  end.

(** [str.lower()]. *)
Definition lower (s : string) : string :=
  of_points (lower_from [] (points s)).

(** [str.capitalize()]: the first code point in titlecase, the others
    in lowercase. *)
Definition capitalize (s : string) : string :=
  match points s with
  | [] => EmptyString
  | c :: r => of_points (title_full c ++ lower_from [c] r)
  end.

(** Whitespace as [str.isspace] has it, and the value of a decimal
    digit. *)
Definition unicode_space (c : N) : bool :=
  if c <? 128 then
    (c =? 32) || ((9 <=? c) && (c <=? 13)) || ((28 <=? c) && (c <=? 31))
  else existsb (N.eqb c) unicode_spaces.

Definition decimal_value (c : N) : option N :=
  match find (fun z => (z <=? c) && (c <=? z + 9)) decimal_zeros with
  | Some z => Some (c - z)
  | None => None
  end.

(** The ASCII text that [int] reads in place of a [str] that is not
    ASCII: whitespace as a space, a decimal digit as its ASCII digit,
    and a question mark for the first code point that is neither, where
    the text ends. *)
Fixpoint to_ascii_decimal (l : list N) : list ascii :=
  match l with
  | [] => []
  | c :: r =>
      if c <? 127 then byte c :: to_ascii_decimal r
      else if unicode_space c then " "%char :: to_ascii_decimal r
      else
        match decimal_value c with
        | Some d => byte (48 + d) :: to_ascii_decimal r
        | None => ["?"%char]
        end
  end.

Definition is_ascii_text (l : list ascii) : bool :=
  forallb (fun c => code c <? 128) l.

Local Close Scope N_scope.

Definition is_upper (c : ascii) : bool :=
  let n := nat_of_ascii c in (Nat.leb 65 n && Nat.leb n 90)%bool.
Definition is_lower (c : ascii) : bool :=
  let n := nat_of_ascii c in (Nat.leb 97 n && Nat.leb n 122)%bool.

(** The lowercase and the uppercase of an ASCII character. *)
Definition lower_char (c : ascii) : ascii :=
  if is_upper c then ascii_of_nat (nat_of_ascii c + 32) else c.
Definition upper_char (c : ascii) : ascii :=
  if is_lower c then ascii_of_nat (nat_of_ascii c - 32) else c.

(** [str(n)] for an [int]. *)
Definition str_of_int (n : Z) : string :=
  NilZero.string_of_int (Z.to_int n).

(** [s.split(sep)] for a one-character separator. *)
Fixpoint split_on (sep : ascii) (cur : list ascii) (s : list ascii)
  : list string :=
  match s with
  | [] => [str_of (rev cur)]
  | c :: r =>
      if Ascii.eqb c sep then str_of (rev cur) :: split_on sep [] r
      else split_on sep (c :: cur) r
  end.

Definition split (s : string) (sep : ascii) : list string :=
  split_on sep [] (chars s).

(** Whitespace that [int] skips around the literal: space, \t \n \v \f
    \r. *)
Definition is_space (c : ascii) : bool :=
  let n := nat_of_ascii c in
  (Nat.eqb n 32 || (Nat.leb 9 n && Nat.leb n 13))%bool.

Fixpoint lstrip (l : list ascii) : list ascii :=
  match l with
  | c :: r => if is_space c then lstrip r else l
  | [] => []
  end.

Definition strip (l : list ascii) : list ascii :=
  rev (lstrip (rev (lstrip l))).

Definition digit_of (c : ascii) : option Z :=
  let n := nat_of_ascii c in
  if (Nat.leb 48 n && Nat.leb n 57)%bool then Some (Z.of_nat (n - 48))
  else None.

(** Digits of a decimal literal; a single underscore may stand between
    two digits.  [after_digit] says whether the previous character was a
    digit. *)
Fixpoint digits (acc : Z) (after_digit : bool) (l : list ascii)
  : option Z :=
  match l with
  | [] => if after_digit then Some acc else None
  | c :: r =>
      match digit_of c with
      | Some d => digits (10 * acc + d) true r
      | None =>
          if (Ascii.eqb c "_" && after_digit)%bool then
            match r with
            | [] => None
            | _ => digits acc false r
            end
          else None
      end
  end.

(** [int(s)] for a [str]. *)
Definition int_of_str (s : string) : Result Z :=
  let text :=
    if is_ascii_text (chars s) then chars s
    else to_ascii_decimal (points s) in
  let body := strip text in
  let parsed :=
    match body with
    | "-"%char :: r => option_map Z.opp (digits 0 false r)
    | "+"%char :: r => digits 0 false r
    | _ => digits 0 false body
    end in
  match parsed with
  | Some z => Ret z
  | None => Raise ValueError
  end.

(** *** Operations on parsed JSON *)

Fixpoint assoc (k : string) (d : list (string * JSON)) : option JSON :=
  match d with
  | [] => None
  | (k', v) :: r => if String.eqb k k' then Some v else assoc k r
  end.

(** [x[key]] for a [str] key: only a [dict] can answer. *)
Definition getitem (x : JSON) (key : string) : Result JSON :=
  match x with
  | JDict d =>
      match assoc key d with
      | Some v => Ret v
      | None => Raise (KeyError key)
      end
  | _ => Raise TypeError
  end.

(** The characters of a string, each a string of one code point. *)
Definition char_strs (s : string) : list JSON :=
  map (fun c => JStr (of_points [c])) (points s).

(** [for x in data]: the items of a list, the characters of a string,
    the keys of a dict. *)
Definition iter (data : JSON) : Result (list JSON) :=
  match data with
  | JList l => Ret l
  | JStr s => Ret (char_strs s)
  | JDict d => Ret (map (fun kv => JStr (fst kv)) d)
  | _ => Raise TypeError
  end.

(** [for x in data[1:]]: a slice exists for lists and strings; a dict
    rejects the slice as a key, the other values take no subscript. *)
Definition iter_from_1 (data : JSON) : Result (list JSON) :=
  match data with
  | JList l => Ret (tl l)
  | JStr s => Ret (tl (char_strs s))
  | _ => Raise TypeError
  end.

(** [int(x)]. *)
Definition int (x : JSON) : Result Z :=
  match x with
  | JInt z => Ret z
  | JBool b => Ret (if b then 1 else 0)
  | JStr s => int_of_str s
  | _ => Raise TypeError
  end.

(** [x == n] for an [int] n ([bool] is a subclass of [int]). *)
Definition eq_int (x : JSON) (n : Z) : bool :=
  match x with
  | JInt z => Z.eqb z n
  | JBool b => Z.eqb (if b then 1 else 0) n
  | _ => false
  end.

(** [x == s] for a [str] s. *)
Definition eq_str (x : JSON) (s : string) : bool :=
  match x with
  | JStr t => String.eqb t s
  | _ => false
  end.

End Py.
Import Py.

(** ** The world outside the program *)

(** What [requests.get] comes back with: an exception of the library, or
    a response.  [json] is the parsed body, [None] when the body is not
    JSON (then [response.json()] raises). *)
Record Response : Type := mkResponse {
  status_code : Z;
  json : option JSON
}.

Inductive Outcome : Type :=
| Fails (e : RequestsExc)
| Responds (r : Response).

(** [net n url] is the outcome of the request number [n] when it goes to
    [url]; [clock n] is the n-th reading of [time.time()], in the unit
    in which [wait_time] is given.  [sent] lists the requested URLs,
    oldest first, [reads] counts the clock readings, [stdout] holds the
    printed lines, oldest first. *)
Record World : Type := mkWorld {
  net : nat -> string -> Outcome;
  clock : nat -> Z;
  sent : list string;
  reads : nat;
  stdout : list string
}.

Definition M (A : Type) : Type := World -> Result A * World.

Definition ret {A} (a : A) : M A := fun w => (Ret a, w).
Definition raise {A} (e : Exc) : M A := fun w => (Raise e, w).
Definition lift {A} (r : Result A) : M A := fun w => (r, w).

Definition bind {A B} (m : M A) (k : A -> M B) : M B :=
  fun w =>
    match m w with
    | (Ret a, w1) => k a w1
    | (Raise e, w1) => (Raise e, w1)
    end.

Declare Scope py_scope.
Delimit Scope py_scope with py.
Notation "x <- m ;; k" := (bind m (fun x => k))
  (at level 61, m at next level, right associativity) : py_scope.
Notation "m ;;; k" := (bind m (fun _ => k))
  (at level 61, right associativity) : py_scope.
Local Open Scope py_scope.

(** The three marks the program leaves on the world. *)
Definition add_line (line : string) (w : World) : World :=
  mkWorld (net w) (clock w) (sent w) (reads w) (stdout w ++ [line]).
Definition add_request (url : string) (w : World) : World :=
  mkWorld (net w) (clock w) (sent w ++ [url]) (reads w) (stdout w).
Definition add_read (w : World) : World :=
  mkWorld (net w) (clock w) (sent w) (S (reads w)) (stdout w).

(** [print(line)]. *)
Definition print (line : string) : M unit :=
  fun w => (Ret tt, add_line line w).

(** [time.time()], which does not raise. *)
Definition time_time (w : World) : Z * World :=
  (clock w (reads w), add_read w).

(** [requests.get(url, timeout=...)]: the timeout is part of what the
    world decides, a request that runs into it comes back as [Fails]
    with one of the two timeout classes. *)
Definition requests_get (url : string) (timeout : Z) : M Response :=
  fun w =>
    match net w (List.length (sent w)) url with
    | Fails e => (Raise (RequestException e), add_request url w)
    | Responds r => (Ret r, add_request url w)
    end.

(** [response.json()]. *)
Definition response_json (r : Response) : M JSON :=
  match json r with
  | Some j => ret j
  | None => raise JSONDecodeError
  end.

(** ** class SocketError *)

(** [SocketError.get_error], which is also [str(e)]. *)
Definition get_error (error_message endpoint : string) : string :=
  error_message ++ " endpoint: '" ++ endpoint ++ "'".

(** ** class Socket *)

(** The attributes that [__init__] sets, in the order it sets them. *)
Record Socket : Type := mkSocket {
  base_endpoint : string;
  inv_endpoint : string;
  stats_endpoint : string;
  equip_endpoint : string;
  events_endpoint : string;
  timeout : Z
}.

(** [Socket()]. *)
Definition init : Socket :=
  mkSocket "http://localhost:8081/" "inv" "stats" "equip" "events" 1.

(** The three messages with which [__do_get] raises. *)
Definition msg_unreachable : string := "Unable to reach socket".
Definition msg_not_ready (status : Z) : string :=
  "Endpoint not available, make sure you are fully logged in, status code: "
  ++ str_of_int status.
Definition msg_bad_status (status : Z) : string :=
  "Unable to reach socket, status code: " ++ str_of_int status.

(** [try: x = m  except ConnectionError as e: raise SocketError(...)]. *)
Definition get_or_unreachable (m : M Response) (endpoint : string)
  : M Response :=
  fun w =>
    match m w with
    | (Raise (RequestException e), w1) =>
        if is_ConnectionError e
        then (Raise (SocketError msg_unreachable endpoint), w1)
        else (Raise (RequestException e), w1)
    | other => other
    end.

(** [Socket.__do_get]. *)
Definition do_get (self : Socket) (endpoint : string) : M JSON :=
  response <- get_or_unreachable
                (requests_get (base_endpoint self ++ endpoint) (timeout self))
                endpoint ;;
  if negb (status_code response =? 200) then
    if status_code response =? 204 then
      raise (SocketError (msg_not_ready (status_code response)) endpoint)
    else
      raise (SocketError (msg_bad_status (status_code response)) endpoint)
  else response_json response.

(** A value of [self.__dict__]. *)
Inductive Attr : Type :=
| AStr (s : string)
| AInt (n : Z).

(** [list(self.__dict__.values())]. *)
Definition dict_values (self : Socket) : list Attr :=
  [AStr (base_endpoint self); AStr (inv_endpoint self);
   AStr (stats_endpoint self); AStr (equip_endpoint self);
   AStr (events_endpoint self); AInt (timeout self)].

(** [l[1:-1]]. *)
Definition slice_1_m1 {A} (l : list A) : list A := removelast (tl l).

(** How an attribute reads inside an f-string. *)
Definition format_attr (a : Attr) : string :=
  match a with
  | AStr s => s
  | AInt n => str_of_int n
  end.

(** The loop of [__test_endpoints] over the attributes still to try. *)
Fixpoint test_each (self : Socket) (l : list Attr) : M bool :=
  match l with
  | [] => ret true
  | i :: rest =>
      fun w =>
        match do_get self (format_attr i) w with
        | (Ret _, w1) => test_each self rest w1
        | (Raise (SocketError m ep), w1) =>
            (print (get_error m ep) ;;;
             print ("Endpoint '" ++ format_attr i ++ "' is not working.") ;;;
             ret false) w1
        | (Raise e, w1) => (Raise e, w1)
        end
  end.

(** [Socket.__test_endpoints]. *)
Definition test_endpoints (self : Socket) : M bool :=
  test_each self (slice_1_m1 (dict_values self)).

(** The clause every accessor opens with:
    [try: data = m  except SocketError as e: print(e); return None],
    followed by the rest of the body [k]. *)
Definition or_print_none {A B} (m : M A) (k : A -> M (option B))
  : M (option B) :=
  fun w =>
    match m w with
    | (Ret data, w1) => k data w1
    | (Raise (SocketError msg ep), w1) =>
        (print (get_error msg ep) ;;; ret None) w1
    | (Raise e, w1) => (Raise e, w1)
    end.

(** *** Accessors over the events endpoint *)

(** [x.split(sep)]: a method of [str] only. *)
Definition str_split (x : JSON) (sep : ascii) : Result (list string) :=
  match x with
  | JStr s => Ret (split s sep)
  | _ => Raise AttributeError
  end.

(** [Socket.get_hitpoints]. *)
Definition get_hitpoints (self : Socket) : M (option (Z * Z)) :=
  or_print_none (do_get self (events_endpoint self)) (fun data =>
    hitpoints_data <- lift (getitem data "health") ;;
    parts <- lift (str_split hitpoints_data "/") ;;
    match parts with
    | [cur_hp; max_hp] =>
        c <- lift (int_of_str cur_hp) ;;
        m <- lift (int_of_str max_hp) ;;
        ret (Some (c, m))
    | _ => raise ValueError
    end).

(** The body shared by the accessors that return [int(data[key])] of
    the events snapshot. *)
Definition events_int (self : Socket) (key : string) : M (option Z) :=
  or_print_none (do_get self (events_endpoint self)) (fun data =>
    v <- lift (rbind (getitem data key) int) ;;
    ret (Some v)).

(** [Socket.run_energy]. *)
Definition run_energy (self : Socket) : M (option Z) :=
  events_int self "run energy".

(** [Socket.get_animation]. *)
Definition get_animation (self : Socket) : M (option Z) :=
  events_int self "animation".

(** [Socket.get_animation_id]. *)
Definition get_animation_id (self : Socket) : M (option Z) :=
  events_int self "animation pose".

(** [Socket.get_is_player_idle]. *)
Definition get_is_player_idle (self : Socket) : M (option bool) :=
  or_print_none (do_get self (events_endpoint self)) (fun data =>
    pose <- lift (getitem data "animation pose") ;;
    ret (Some (eq_int pose 808 || eq_int pose 813)%bool)).

(** [Socket.get_game_tick]. *)
Definition get_game_tick (self : Socket) : M (option Z) :=
  events_int self "game tick".

(** [int(data[outer][inner])]. *)
Definition int_at (data : JSON) (outer inner : string) : Result Z :=
  rbind (rbind (getitem data outer) (fun o => getitem o inner)) int.

(** [Socket.get_player_position]. *)
Definition get_player_position (self : Socket) : M (option (Z * Z * Z)) :=
  or_print_none (do_get self (events_endpoint self)) (fun data =>
    x <- lift (int_at data "worldPoint" "x") ;;
    y <- lift (int_at data "worldPoint" "y") ;;
    z <- lift (int_at data "worldPoint" "plane") ;;
    ret (Some (x, y, z))).

(** [Socket.get_player_region_data]. *)
Definition get_player_region_data (self : Socket)
  : M (option (Z * Z * Z)) :=
  or_print_none (do_get self (events_endpoint self)) (fun data =>
    x <- lift (int_at data "worldPoint" "regionX") ;;
    y <- lift (int_at data "worldPoint" "regionY") ;;
    i <- lift (int_at data "worldPoint" "regionID") ;;
    ret (Some (x, y, i))).

(** [Socket.get_camera_position]. *)
Definition get_camera_position (self : Socket) : M (option JSON) :=
  or_print_none (do_get self (events_endpoint self)) (fun data =>
    camera <- lift (getitem data "camera") ;;
    ret (Some camera)).

(** [Socket.get_mouse_position]. *)
Definition get_mouse_position (self : Socket) : M (option (Z * Z)) :=
  or_print_none (do_get self (events_endpoint self)) (fun data =>
    x <- lift (int_at data "mouse" "x") ;;
    y <- lift (int_at data "mouse" "y") ;;
    ret (Some (x, y))).

(** [Socket.get_interaction_code]. *)
Definition get_interaction_code (self : Socket) : M (option Z) :=
  events_int self "interacting code".

(** [Socket.get_npc_name]. *)
Definition get_npc_name (self : Socket) : M (option Z) :=
  events_int self "npc name".

(** [Socket.get_npc_health]. *)
Definition get_npc_health (self : Socket) : M (option Z) :=
  events_int self "npc health".

(** *** Accessors over the stats endpoint *)

(** [next(int(i[field]) for i in items if i['stat'] == stat_name)]:
    the generator is consumed up to its first yield. *)
Fixpoint next_stat (field stat_name : string) (items : list JSON)
  : Result Z :=
  match items with
  | [] => Raise StopIteration
  | i :: rest =>
      match getitem i "stat" with
      | Raise e => Raise e
      | Ret s =>
          if eq_str s stat_name then rbind (getitem i field) int
          else next_stat field stat_name rest
      end
  end.

(** [next(int(i[field]) for i in data[1:] if i['stat'] == stat_name)]. *)
Definition first_stat (field stat_name : string) (data : JSON)
  : Result Z :=
  rbind (iter_from_1 data) (next_stat field stat_name).

(** The body shared by [get_stat_level], [get_stat_xp] and
    [get_stat_xp_gained], which differ in the field they read. *)
Definition stat_lookup (field : string) (self : Socket)
  (stat_name : string) : M (option Z) :=
  let stat_name := capitalize (lower stat_name) in
  or_print_none (do_get self (stats_endpoint self)) (fun data =>
    match first_stat field stat_name data with
    | Ret value => ret (Some value)
    | Raise StopIteration =>
        print ("Invalid stat name: " ++ stat_name) ;;; ret None
    | Raise e => raise e
    end).

(** [Socket.get_stat_level]. *)
Definition get_stat_level : Socket -> string -> M (option Z) :=
  stat_lookup "level".

(** [Socket.get_stat_xp]. *)
Definition get_stat_xp : Socket -> string -> M (option Z) :=
  stat_lookup "xp".

(** [Socket.get_stat_xp_gained]. *)
Definition get_stat_xp_gained : Socket -> string -> M (option Z) :=
  stat_lookup "xp gained".

(** A computation that may loop: [None] when the fuel does not reach
    the end of the run. *)
Definition Loop (A : Type) : Type := World -> option (Result A * World).

(** The [while] loop of [wait_til_gained_xp]; one unit of fuel per
    evaluation of the loop condition. *)
Fixpoint poll_xp (fuel : nat) (self : Socket) (stat_name : string)
  (starting_xp stop_time : Z) : Loop (option Z) :=
  fun w =>
    match fuel with
    | O => None
    | S fuel' =>
        let (now, w0) := time_time w in
        if now <? stop_time then
          match do_get self (stats_endpoint self) w0 with
          | (Raise (SocketError msg ep), w1) =>
              Some ((print (get_error msg ep) ;;; ret None) w1)
          | (Raise e, w1) => Some (Raise e, w1)
          | (Ret data, w1) =>
              match first_stat "xp" stat_name data with
              | Raise e => Some (Raise e, w1)
              | Ret final_xp =>
                  if final_xp >? starting_xp
                  then Some (Ret (Some final_xp), w1)
                  else poll_xp fuel' self stat_name starting_xp stop_time w1
              end
          end
        else Some (Ret None, w0)
    end.

(** [Socket.wait_til_gained_xp]. *)
Definition wait_til_gained_xp (fuel : nat) (self : Socket)
  (stat_name : string) (wait_time : Z) : Loop (option Z) :=
  fun w =>
    let stat_name := capitalize (lower stat_name) in
    match get_stat_xp self stat_name w with
    | (Raise e, w1) => Some (Raise e, w1)
    | (Ret None, w1) =>
        Some ((print "Failed to get starting xp." ;;; ret None) w1)
    | (Ret (Some starting_xp), w1) =>
        let (now, w2) := time_time w1 in
        poll_xp fuel self stat_name starting_xp (now + wait_time) w2
    end.

(** *** Accessors over the inventory and equipment endpoints *)

(** [any(slot['id'] == item_id for slot in slots)]. *)
Fixpoint any_id (item_id : Z) (slots : list JSON) : Result bool :=
  match slots with
  | [] => Ret false
  | inventory_slot :: rest =>
      match getitem inventory_slot "id" with
      | Raise e => Raise e
      | Ret v => if eq_int v item_id then Ret true else any_id item_id rest
      end
  end.

(** [Socket.get_if_item_in_inv]. *)
Definition get_if_item_in_inv (self : Socket) (item_id : Z)
  : M (option bool) :=
  or_print_none (do_get self (inv_endpoint self)) (fun data =>
    b <- lift (rbind (iter data) (any_id item_id)) ;;
    ret (Some b)).

(** [[(index, slot['quantity']) for index, slot in enumerate(slots)
      if slot['id'] == item_id]], with [index] counting from [start]. *)
Fixpoint find_from (start : nat) (item_id : Z) (slots : list JSON)
  : Result (list (nat * JSON)) :=
  match slots with
  | [] => Ret []
  | inventory_slot :: rest =>
      match getitem inventory_slot "id" with
      | Raise e => Raise e
      | Ret v =>
          if eq_int v item_id then
            match getitem inventory_slot "quantity" with
            | Raise e => Raise e
            | Ret q =>
                rbind (find_from (S start) item_id rest)
                      (fun l => Ret ((start, q) :: l))
            end
          else find_from (S start) item_id rest
      end
  end.

(** [Socket.find_item_in_inv]. *)
Definition find_item_in_inv (self : Socket) (item_id : Z)
  : M (option (list (nat * JSON))) :=
  or_print_none (do_get self (inv_endpoint self)) (fun data =>
    l <- lift (rbind (iter data) (find_from 0 item_id)) ;;
    ret (Some l)).

(** [[equipment_id['id'] for equipment_id in items]]. *)
Fixpoint ids_of (items : list JSON) : Result (list JSON) :=
  match items with
  | [] => Ret []
  | equipment_id :: rest =>
      match getitem equipment_id "id" with
      | Raise e => Raise e
      | Ret v => rbind (ids_of rest) (fun l => Ret (v :: l))
      end
  end.

(** [Socket.get_player_equipment]. *)
Definition get_player_equipment (self : Socket) : M (option (list JSON)) :=
  or_print_none (do_get self (equip_endpoint self)) (fun data =>
    l <- lift (rbind (iter data) ids_of) ;;
    ret (Some l)).

(** *** The catalog of accessors *)

(** What an accessor returns when it does not return [None]. *)
Inductive Value : Type :=
| VInt (n : Z)
| VBool (b : bool)
| VPair (p : Z * Z)
| VTriple (t : Z * Z * Z)
| VJson (j : JSON)
| VSlots (l : list (nat * JSON))
| VIds (l : list JSON).

Inductive Accessor : Type :=
| a_get_hitpoints
| a_run_energy
| a_get_animation
| a_get_animation_id
| a_get_is_player_idle
| a_get_stat_level (stat_name : string)
| a_get_stat_xp (stat_name : string)
| a_get_stat_xp_gained (stat_name : string)
| a_wait_til_gained_xp (stat_name : string) (wait_time : Z)
| a_get_game_tick
| a_get_player_position
| a_get_player_region_data
| a_get_camera_position
| a_get_mouse_position
| a_get_interaction_code
| a_get_npc_name
| a_get_npc_health
| a_get_if_item_in_inv (item_id : Z)
| a_find_item_in_inv (item_id : Z)
| a_get_player_equipment.

Definition map_result {A B} (f : A -> B) (x : Result (option A) * World)
  : Result (option B) * World :=
  match x with
  | (Ret v, w) => (Ret (option_map f v), w)
  | (Raise e, w) => (Raise e, w)
  end.

Definition once {A} (f : A -> Value) (m : M (option A))
  : Loop (option Value) :=
  fun w => Some (map_result f (m w)).

(** A call of an accessor; [fuel] bounds the polling loop. *)
Definition call (fuel : nat) (self : Socket) (a : Accessor)
  : Loop (option Value) :=
  match a with
  | a_get_hitpoints => once VPair (get_hitpoints self)
  | a_run_energy => once VInt (run_energy self)
  | a_get_animation => once VInt (get_animation self)
  | a_get_animation_id => once VInt (get_animation_id self)
  | a_get_is_player_idle => once VBool (get_is_player_idle self)
  | a_get_stat_level n => once VInt (get_stat_level self n)
  | a_get_stat_xp n => once VInt (get_stat_xp self n)
  | a_get_stat_xp_gained n => once VInt (get_stat_xp_gained self n)
  | a_wait_til_gained_xp n t =>
      fun w => option_map (map_result VInt)
                 (wait_til_gained_xp fuel self n t w)
  | a_get_game_tick => once VInt (get_game_tick self)
  | a_get_player_position => once VTriple (get_player_position self)
  | a_get_player_region_data => once VTriple (get_player_region_data self)
  | a_get_camera_position => once VJson (get_camera_position self)
  | a_get_mouse_position => once VPair (get_mouse_position self)
  | a_get_interaction_code => once VInt (get_interaction_code self)
  | a_get_npc_name => once VInt (get_npc_name self)
  | a_get_npc_health => once VInt (get_npc_health self)
  | a_get_if_item_in_inv i => once VBool (get_if_item_in_inv self i)
  | a_find_item_in_inv i => once VSlots (find_item_in_inv self i)
  | a_get_player_equipment => once VIds (get_player_equipment self)
  end.

(** The endpoint an accessor fetches. *)
Definition endpoint_of (self : Socket) (a : Accessor) : string :=
  match a with
  | a_get_stat_level _ | a_get_stat_xp _ | a_get_stat_xp_gained _
  | a_wait_til_gained_xp _ _ => stats_endpoint self
  | a_get_if_item_in_inv _ | a_find_item_in_inv _ => inv_endpoint self
  | a_get_player_equipment => equip_endpoint self
  | _ => events_endpoint self
  end.

(** ** Vocabulary of the specification *)

(** The fault, if any, with which a fetch of [endpoint] answers an
    outcome of the network: the message of the [SocketError]. *)
Definition fault_of (o : Outcome) : option string :=
  match o with
  | Fails e => if is_ConnectionError e then Some msg_unreachable else None
  | Responds r =>
      if status_code r =? 200 then None
      else if status_code r =? 204 then Some (msg_not_ready 204)
      else Some (msg_bad_status (status_code r))
  end.

(** What a fetch makes of an outcome. *)
Definition fetched (endpoint : string) (o : Outcome) : Result JSON :=
  match fault_of o with
  | Some msg => Raise (SocketError msg endpoint)
  | None =>
      match o with
      | Fails e => Raise (RequestException e)
      | Responds r =>
          match json r with
          | Some j => Ret j
          | None => Raise JSONDecodeError
          end
      end
  end.

(** The URL of an endpoint and the outcome of the next request to it. *)
Definition url_of (self : Socket) (endpoint : string) : string :=
  base_endpoint self ++ endpoint.
Definition next_outcome (self : Socket) (endpoint : string) (w : World)
  : Outcome :=
  net w (List.length (sent w)) (url_of self endpoint).

(** A response with status 200 and a JSON body. *)
Definition ok (body : JSON) : Outcome :=
  Responds (mkResponse 200 (Some body)).



(** An inventory slot record: a dict with an 'id' and a 'quantity'. *)
Definition slot_id (slot : JSON) : option JSON :=
  match slot with JDict d => assoc "id" d | _ => None end.
Definition slot_quantity (slot : JSON) : option JSON :=
  match slot with JDict d => assoc "quantity" d | _ => None end.
Definition is_slot (slot : JSON) : Prop :=
  slot_id slot <> None /\ slot_quantity slot <> None.

(** Whether a slot holds the item. *)
Definition holds (item_id : Z) (slot : JSON) : bool :=
  match slot_id slot with
  | Some v => eq_int v item_id
  | None => false
  end.

(** The (slot index, quantity) pairs of the slots that hold the item. *)
Definition matching_slots (item_id : Z) (slots : list JSON)
  : list (nat * JSON) :=
  map (fun p => (fst p, match slot_quantity (snd p) with
                        | Some q => q
                        | None => JNull
                        end))
      (filter (fun p => holds item_id (snd p))
              (combine (seq 0 (List.length slots)) slots)).

(** A stats record: a dict with a 'stat' field; [stat_is] tells whether
    the field is the given name. *)
Definition stat_field (record : JSON) : option JSON :=
  match record with JDict d => assoc "stat" d | _ => None end.
Definition stat_is (stat_name : string) (record : JSON) : bool :=
  match stat_field record with
  | Some v => eq_str v stat_name
  | None => false
  end.

(** The four endpoints of a socket, in the order they are configured. *)
Definition endpoints (self : Socket) : list string :=
  [inv_endpoint self; stats_endpoint self; equip_endpoint self;
   events_endpoint self].

(** ** Worlds to run the program in *)

(** A world in which every request gets the same outcome and the clock
    reads [t0], [t0 + 1], ... *)
Definition always (o : Outcome) (t0 : Z) : World :=
  mkWorld (fun _ _ => o) (fun n => t0 + Z.of_nat n) [] O [].

(** A world in which the n-th request gets the n-th outcome of a script
    (and the last one for ever after). *)
Definition scripted (script : list Outcome) (final : Outcome) (t0 : Z)
  : World :=
  mkWorld (fun n _ => nth n script final) (fun n => t0 + Z.of_nat n) [] O [].

(** A stats record as the service sends it. *)
Definition stat_record (name : string) (level xp gained : Z) : JSON :=
  JDict [("stat", JStr name); ("level", JInt level); ("xp", JInt xp);
         ("xp gained", JInt gained)].

(** An inventory slot as the service sends it. *)
Definition slot (id quantity : Z) : JSON :=
  JDict [("id", JInt id); ("quantity", JInt quantity)].

(** A stats table in which Attack has the given total xp. *)
Definition xp_table (xp : Z) : JSON :=
  JList [stat_record "Overall" 41 (1154 + xp) 0;
         stat_record "Attack" 40 xp 0;
         stat_record "Defence" 1 0 0].

(** Several requests in a row. *)
Definition add_requests (urls : list string) (w : World) : World :=
  mkWorld (net w) (clock w) (sent w ++ urls) (reads w) (stdout w).

(** The outcome of the j-th fetch of a run over the endpoints [eps]
    that starts in [w]. *)
Definition outcome_at (self : Socket) (eps : list string) (w : World)
  (j : nat) : Outcome :=
  net w (List.length (sent w) + j)%nat (url_of self (nth j eps "")).

(** A result that is not a raised [SocketError]. *)
Definition faultless {A} (r : Result A) : Prop :=
  match r with
  | Raise (SocketError _ _) => False
  | _ => True
  end.

(** A computation that sends no request and raises no [SocketError]. *)
Definition quiet {A} (m : M A) : Prop :=
  forall w, faultless (fst (m w)) /\ sent (snd (m w)) = sent w.


(** Text in ASCII, and what [str.lower] and [str.capitalize] make of
    it. *)
Definition is_ascii (s : string) : Prop := is_ascii_text (chars s) = true.

Fixpoint ascii_lower (s : string) : string :=
  match s with
  | EmptyString => EmptyString
  | String c r => String (lower_char c) (ascii_lower r)
  end.

Definition ascii_capitalize (s : string) : string :=
  match s with
  | EmptyString => EmptyString
  | String c r => String (upper_char c) (ascii_lower r)
  end.

(** What the case tables say of an ASCII code point. *)
Definition ascii_point_checked (n : N) : bool :=
  (if list_eq_dec N.eq_dec (lower_full n) [code (lower_char (byte n))]
   then true else false)
  && (if list_eq_dec N.eq_dec (title_full n) [code (upper_char (byte n))]
      then true else false)
  && negb (n =? 931)%N
  && implb (Nat.leb 65 (N.to_nat n) && Nat.leb (N.to_nat n) 90)
       (negb (case_ignorable n) && negb (case_ignorable (n + 32))
        && Bool.eqb (cased n) (cased (n + 32))).

(** ** Vocabulary of the further properties *)

(** A computation that leaves the world as it found it. *)
Definition mute {A} (m : M A) : Prop :=
  forall w, snd (m w) = w.

(** A computation that leaves the world as it found it, or returns
    [None] having printed one line. *)
Definition tame {B} (m : M (option B)) : Prop :=
  forall w,
    snd (m w) = w
    \/ (fst (m w) = Ret None /\ exists line, snd (m w) = add_line line w).

(** The key of the events snapshot that an accessor converts with
    [int], for the accessors that do just that. *)
Definition events_key (a : Accessor) : option string :=
  match a with
  | a_run_energy => Some "run energy"
  | a_get_animation => Some "animation"
  | a_get_animation_id => Some "animation pose"
  | a_get_game_tick => Some "game tick"
  | a_get_interaction_code => Some "interacting code"
  | a_get_npc_name => Some "npc name"
  | a_get_npc_health => Some "npc health"
  | _ => None
  end.

(** The number that a string of decimal digits denotes, read from the
    left onto an accumulator. *)
Fixpoint uval (d : Decimal.uint) (acc : Z) : Z :=
  match d with
  | Decimal.Nil => acc
  | Decimal.D0 d => uval d (10 * acc + 0)
  | Decimal.D1 d => uval d (10 * acc + 1)
  | Decimal.D2 d => uval d (10 * acc + 2)
  | Decimal.D3 d => uval d (10 * acc + 3)
  | Decimal.D4 d => uval d (10 * acc + 4)
  | Decimal.D5 d => uval d (10 * acc + 5)
  | Decimal.D6 d => uval d (10 * acc + 6)
  | Decimal.D7 d => uval d (10 * acc + 7)
  | Decimal.D8 d => uval d (10 * acc + 8)
  | Decimal.D9 d => uval d (10 * acc + 9)
  end.

(** A character of the decimal notation of an integer. *)
Definition is_decimal_char (c : ascii) : bool :=
  match digit_of c with
  | Some _ => true
  | None => Ascii.eqb c "-"
  end.

(** The 'id' of each record of a list. *)
Definition ids (items : list JSON) : list (option JSON) :=
  map slot_id items.

(** A record that carries a 'stat' field other than the given name. *)
Definition other_stat (stat_name : string) (record : JSON) : Prop :=
  stat_field record <> None /\ stat_is stat_name record = false.

(** The field of a record, when the record is a dict. *)
Definition field_of (field : string) (record : JSON) : option JSON :=
  match record with JDict d => assoc field d | _ => None end.

(** An object all of whose values are integers. *)
Definition int_fields (fields : list (string * JSON)) : Prop :=
  Forall (fun kv => exists n, snd kv = JInt n) fields.

(** The first of the keys that an object lacks. *)
Definition first_missing (keys : list string)
  (fields : list (string * JSON)) : option string :=
  find (fun k => match assoc k fields with
                 | None => true
                 | Some _ => false
                 end) keys.

(** What is behind a fault: no response, or a response of some status. *)
Definition cause (o : Outcome) : option Z :=
  match o with
  | Fails _ => None
  | Responds r => Some (status_code r)
  end.

(** ** Checks of the string and JSON primitives *)

Example str_of_int_204 : str_of_int 204 = "204".
Proof. reflexivity. Qed.

Example int_of_str_21 : int_of_str " 21" = Ret 21.
Proof. reflexivity. Qed.

Example int_of_str_bad : int_of_str "2__1" = Raise ValueError.
Proof. reflexivity. Qed.

Example split_health : split "21/99" "/" = ["21"; "99"].
Proof. reflexivity. Qed.

Example capitalize_lower : capitalize (lower "aTTACK") = "Attack".
Proof. reflexivity. Qed.

(** U+00C9 a and U+00E9 A (E with acute, capital and small) normalize
    to the same name. *)
Example normalize_latin :
  capitalize (lower (of_points [201; 97]%N)) = of_points [201; 97]%N
  /\ capitalize (lower (of_points [233; 65]%N)) = of_points [201; 97]%N.
Proof. vm_compute. split; reflexivity. Qed.

(** U+0149 (n preceded by apostrophe) has a titlecase of two code
    points, U+02BC N, whose normalization is U+02BC n. *)
Example normalize_twice :
  capitalize (lower (of_points [329]%N)) = of_points [700; 78]%N
  /\ capitalize (lower (of_points [700; 78]%N)) = of_points [700; 110]%N.
Proof. vm_compute. split; reflexivity. Qed.

(** The separator \x1c is no whitespace to [int]; the Arabic-Indic
    digits U+0661 U+0662 are digits to it. *)
Example int_of_str_separator :
  int_of_str (String "028" "12") = Raise ValueError.
Proof. reflexivity. Qed.

Example int_of_str_arabic_indic :
  int_of_str (of_points [1633; 1634]%N) = Ret 12.
Proof. vm_compute. reflexivity. Qed.

Example points_of_points :
  points (of_points [913; 931; 97; 128512; 55296]%N)
  = [913; 931; 97; 128512; 55296]%N.
Proof. vm_compute. reflexivity. Qed.

Example hitpoints_21_21 :
  fst (get_hitpoints init (always (ok (JDict [("health", JStr "21/21")])) 0))
  = Ret (Some (21, 21)).
Proof. reflexivity. Qed.

Example hitpoints_0_99 :
  fst (get_hitpoints init (always (ok (JDict [("health", JStr "0/99")])) 0))
  = Ret (Some (0, 99)).
Proof. reflexivity. Qed.

(** ** The fetch operation *)

(** [__do_get] sends one request to the URL of the endpoint and turns
    the outcome into a body or an exception as [fetched] says. *)
Lemma do_get_fetched (self : Socket) (endpoint : string) (w : World) :
  do_get self endpoint w
  = (fetched endpoint (next_outcome self endpoint w),
     add_request (url_of self endpoint) w).
Proof.
  unfold do_get, bind, get_or_unreachable, requests_get, fetched,
    next_outcome, url_of, fault_of.
  destruct (net w (List.length (sent w)) (base_endpoint self ++ endpoint))
    as [e | r].
  - destruct (is_ConnectionError e); reflexivity.
  - destruct (Z.eqb_spec (status_code r) 200) as [E | E]; simpl.
    + unfold response_json. destruct (json r); reflexivity.
    + destruct (Z.eqb_spec (status_code r) 204) as [E' | E']; simpl.
      * rewrite E'. reflexivity.
      * reflexivity.
Qed.

(** C1. For every endpoint (so for each of the four configured ones),
    a fetch answered with status 200 and a JSON body returns that body;
    status 204 raises the not-ready fault, any other status than 200
    the unexpected-status fault with the status in its message, and a
    connection failure the transport fault; each fault carries the
    endpoint that was asked for. *)
Theorem do_get_outcomes (self : Socket) (endpoint : string) (w : World) :
  let w1 := add_request (url_of self endpoint) w in
  (forall body,
      next_outcome self endpoint w = ok body ->
      do_get self endpoint w = (Ret body, w1))
  /\ (forall body,
      next_outcome self endpoint w = Responds (mkResponse 204 body) ->
      do_get self endpoint w
      = (Raise (SocketError
           "Endpoint not available, make sure you are fully logged in, status code: 204"
           endpoint), w1))
  /\ (forall status body,
      status <> 200 -> status <> 204 ->
      next_outcome self endpoint w = Responds (mkResponse status body) ->
      do_get self endpoint w
      = (Raise (SocketError
           ("Unable to reach socket, status code: " ++ str_of_int status)
           endpoint), w1))
  /\ (forall e,
      is_ConnectionError e = true ->
      next_outcome self endpoint w = Fails e ->
      do_get self endpoint w
      = (Raise (SocketError "Unable to reach socket" endpoint), w1)).
Proof.
  intros w1. subst w1. rewrite do_get_fetched.
  split; [| split; [| split]].
  - intros body H. rewrite H. reflexivity.
  - intros body H. rewrite H. reflexivity.
  - intros status body H200 H204 H. rewrite H.
    unfold fetched, fault_of; simpl.
    destruct (Z.eqb_spec status 200) as [E | _]; [contradiction |].
    destruct (Z.eqb_spec status 204) as [E | _]; [contradiction |].
    reflexivity.
  - intros e He H. rewrite H. unfold fetched, fault_of. rewrite He.
    reflexivity.
Qed.

(** The four outcomes of C1 at the inventory endpoint, and the body at
    each of the other three endpoints. *)
Lemma do_get_outcomes_witness :
  let body := JList [slot 995 3] in
  (forall endpoint, In endpoint (endpoints init) ->
     fst (do_get init endpoint (always (ok body) 0)) = Ret body)
  /\ fst (do_get init "inv" (always (Responds (mkResponse 204 None)) 0))
     = Raise (SocketError
         "Endpoint not available, make sure you are fully logged in, status code: 204"
         "inv")
  /\ fst (do_get init "inv" (always (Responds (mkResponse 500 None)) 0))
     = Raise (SocketError "Unable to reach socket, status code: 500" "inv")
  /\ fst (do_get init "inv" (always (Fails ConnectionError) 0))
     = Raise (SocketError "Unable to reach socket" "inv").
Proof.
  intros body. split; [| split; [| split]].
  - intros endpoint _.
    destruct (do_get_outcomes init endpoint (always (ok body) 0))
      as (H & _).
    rewrite (H body); reflexivity.
  - destruct (do_get_outcomes init "inv"
                (always (Responds (mkResponse 204 None)) 0))
      as (_ & H & _).
    rewrite (H None); reflexivity.
  - destruct (do_get_outcomes init "inv"
                (always (Responds (mkResponse 500 None)) 0))
      as (_ & _ & H & _).
    rewrite (H 500 None); [reflexivity | lia | lia | reflexivity].
  - destruct (do_get_outcomes init "inv" (always (Fails ConnectionError) 0))
      as (_ & _ & _ & H).
    rewrite (H ConnectionError); reflexivity.
Defined.

(** C4, at a request that the server accepts and then leaves unanswered
    until the timeout: [requests.get] raises [ReadTimeout], which is a
    [Timeout] and not a [ConnectionError]; it passes the [except]
    clause of [__do_get] and the one of the accessor. *)
Theorem read_timeout_escapes :
  is_Timeout ReadTimeout = true
  /\ fst (do_get init "events" (always (Fails ReadTimeout) 0))
     = Raise (RequestException ReadTimeout)
  /\ fst (get_hitpoints init (always (Fails ReadTimeout) 0))
     = Raise (RequestException ReadTimeout)
  /\ fst (do_get init "events" (always (Fails ConnectTimeout) 0))
     = Raise (SocketError "Unable to reach socket" "events").
Proof. repeat split. Qed.

(** ** The diagnostic operation *)

Lemma add_requests_nil (w : World) : add_requests [] w = w.
Proof.
  destruct w; unfold add_requests; simpl. now rewrite app_nil_r.
Qed.

Lemma add_requests_cons (u : string) (us : list string) (w : World) :
  add_requests us (add_request u w) = add_requests (u :: us) w.
Proof.
  unfold add_requests, add_request; simpl. now rewrite <- app_assoc.
Qed.

Lemma sent_add_request (u : string) (w : World) :
  List.length (sent (add_request u w)) = S (List.length (sent w)).
Proof. simpl. rewrite length_app. simpl. lia. Qed.

(** The slice [[1:-1]] of the attribute values is the four endpoints. *)
Lemma slice_is_endpoints (self : Socket) :
  slice_1_m1 (dict_values self) = map AStr (endpoints self).
Proof. reflexivity. Qed.

Section TestEach.

Variable self : Socket.

Lemma outcome_at_cons ep eps w j :
  outcome_at self eps (add_request (url_of self ep) w) j
  = outcome_at self (ep :: eps) w (S j).
Proof.
  unfold outcome_at. rewrite sent_add_request. simpl.
  now rewrite Nat.add_succ_r.
Qed.

Lemma outcome_at_0 ep eps w :
  outcome_at self (ep :: eps) w 0 = next_outcome self ep w.
Proof. unfold outcome_at, next_outcome. simpl. now rewrite Nat.add_0_r. Qed.

Lemma fetched_ok ep body : fetched ep (ok body) = Ret body.
Proof. reflexivity. Qed.

Lemma fetched_fault ep o m :
  fault_of o = Some m -> fetched ep o = Raise (SocketError m ep).
Proof. unfold fetched. now intros ->. Qed.

Lemma fetched_Ret ep o body :
  fetched ep o = Ret body -> o = ok body.
Proof.
  unfold fetched, fault_of. destruct o as [e | [st [j |]]]; simpl.
  - destruct (is_ConnectionError e); discriminate.
  - destruct (Z.eqb_spec st 200) as [-> | _].
    + intros [= ->]. reflexivity.
    + destruct (st =? 204); discriminate.
  - destruct (st =? 200); [discriminate |].
    destruct (st =? 204); discriminate.
Qed.

Lemma test_each_all_ok (eps : list string) : forall w,
  (forall j, (j < List.length eps)%nat ->
             exists body, outcome_at self eps w j = ok body) ->
  test_each self (map AStr eps) w
  = (Ret true, add_requests (map (url_of self) eps) w).
Proof.
  induction eps as [| ep eps IH]; intros w H; simpl.
  - now rewrite add_requests_nil.
  - rewrite do_get_fetched.
    destruct (H O) as [body Hb]; [simpl; lia |].
    rewrite outcome_at_0 in Hb. rewrite Hb, fetched_ok.
    rewrite IH.
    + now rewrite add_requests_cons.
    + intros j Hj. rewrite outcome_at_cons. apply H. simpl. lia.
Qed.

Lemma test_each_true_inv (eps : list string) : forall w,
  fst (test_each self (map AStr eps) w) = Ret true ->
  forall j, (j < List.length eps)%nat ->
            exists body, outcome_at self eps w j = ok body.
Proof.
  induction eps as [| ep eps IH]; intros w H j Hj; simpl in *.
  - lia.
  - rewrite do_get_fetched in H.
    destruct (fetched ep (next_outcome self ep w)) as [body | e] eqn:F.
    + apply fetched_Ret in F. destruct j as [| j].
      * exists body. now rewrite outcome_at_0.
      * rewrite <- outcome_at_cons. apply IH; [exact H | lia].
    + destruct e; simpl in H; discriminate.
Qed.

Lemma test_each_first_fault (eps : list string) : forall w i m,
  (i < List.length eps)%nat ->
  (forall j, (j < i)%nat -> exists body, outcome_at self eps w j = ok body) ->
  fault_of (outcome_at self eps w i) = Some m ->
  test_each self (map AStr eps) w
  = (Ret false,
     add_line ("Endpoint '" ++ nth i eps "" ++ "' is not working.")
       (add_line (get_error m (nth i eps ""))
          (add_requests (firstn (S i) (map (url_of self) eps)) w))).
Proof.
  induction eps as [| ep eps IH]; intros w i m Hi Hok Hf; simpl in Hi.
  - lia.
  - cbn [map test_each format_attr]. rewrite do_get_fetched.
    destruct i as [| i].
    + rewrite outcome_at_0 in Hf.
      rewrite (fetched_fault _ _ _ Hf). reflexivity.
    + destruct (Hok O) as [body Hb]; [lia |].
      rewrite outcome_at_0 in Hb. rewrite Hb, fetched_ok.
      rewrite (IH _ i m).
      * cbn [nth firstn]. now rewrite add_requests_cons.
      * lia.
      * intros j Hj. rewrite outcome_at_cons. apply Hok. lia.
      * now rewrite outcome_at_cons.
Qed.

End TestEach.

(** C5, as the code has it.  [__test_endpoints] fetches the endpoints
    in the order inv, stats, equip, events and stops at the first fetch
    that faults: it returns [True] exactly when all four fetches are
    answered with a body, having then sent the four requests and
    printed nothing; at the first fault it prints that fault and the
    endpoint, and returns [False] with the later endpoints not
    fetched. *)
Theorem test_endpoints_stops_at_first_fault (self : Socket) (w : World) :
  let eps := endpoints self in
  let all_ok :=
    forall j, (j < 4)%nat -> exists body, outcome_at self eps w j = ok body in
  (fst (test_endpoints self w) = Ret true <-> all_ok)
  /\ (all_ok ->
      snd (test_endpoints self w)
      = add_requests (map (url_of self) eps) w)
  /\ (forall i m,
      (i < 4)%nat ->
      (forall j, (j < i)%nat ->
                 exists body, outcome_at self eps w j = ok body) ->
      fault_of (outcome_at self eps w i) = Some m ->
      test_endpoints self w
      = (Ret false,
         add_line ("Endpoint '" ++ nth i eps "" ++ "' is not working.")
           (add_line (get_error m (nth i eps ""))
              (add_requests (firstn (S i) (map (url_of self) eps)) w)))).
Proof.
  intros eps all_ok. unfold test_endpoints. rewrite slice_is_endpoints.
  fold eps. split; [split |split].
  - intros H. exact (test_each_true_inv self eps w H).
  - intros H. now rewrite (test_each_all_ok self eps w H).
  - intros H. now rewrite (test_each_all_ok self eps w H).
  - intros i m Hi Hok Hf.
    exact (test_each_first_fault self eps w i m Hi Hok Hf).
Qed.

(** A service whose stats endpoint answers 500 while the other three
    answer: two requests are sent, two lines printed, the answer is
    [False]; with all four answering it is [True] after four
    requests. *)
Lemma test_endpoints_stops_at_first_fault_witness :
  let down := scripted [ok JNull; Responds (mkResponse 500 None)]
                (ok JNull) 0 in
  let up := always (ok JNull) 0 in
  test_endpoints init down
  = (Ret false,
     add_line "Endpoint 'stats' is not working."
       (add_line "Unable to reach socket, status code: 500 endpoint: 'stats'"
          (add_requests ["http://localhost:8081/inv";
                         "http://localhost:8081/stats"] down)))
  /\ fst (test_endpoints init up) = Ret true
  /\ sent (snd (test_endpoints init up))
     = ["http://localhost:8081/inv"; "http://localhost:8081/stats";
        "http://localhost:8081/equip"; "http://localhost:8081/events"].
Proof.
  intros down up.
  assert (Hup : forall j, (j < 4)%nat ->
            exists body, outcome_at init (endpoints init) up j = ok body)
    by (intros j _; exists JNull; reflexivity).
  split; [| split].
  - destruct (test_endpoints_stops_at_first_fault init down)
      as (_ & _ & H).
    apply (H 1%nat "Unable to reach socket, status code: 500").
    + lia.
    + intros j Hj. exists JNull.
      destruct j as [| j]; [reflexivity | lia].
    + reflexivity.
  - destruct (test_endpoints_stops_at_first_fault init up) as (H & _).
    apply H. exact Hup.
  - destruct (test_endpoints_stops_at_first_fault init up)
      as (_ & H & _).
    rewrite (H Hup). reflexivity.
Defined.

(** C5 as it was claimed fails where the first endpoint is not ready:
    one fetch is made, not one per endpoint. *)
Lemma test_endpoints_not_all_fetched :
  let w := scripted [Responds (mkResponse 204 None)] (ok JNull) 0 in
  fst (test_endpoints init w) = Ret false
  /\ sent (snd (test_endpoints init w)) = ["http://localhost:8081/inv"]
  /\ List.length (sent (snd (test_endpoints init w)))
     <> List.length (endpoints init).
Proof.
  split; [reflexivity | split; [reflexivity |]].
  vm_compute. discriminate.
Qed.

(** ** Accessors: what a fetch turns into *)

(** The opening clause of an accessor, by the outcome of its request. *)
Lemma or_print_none_fetched {B} (self : Socket) (endpoint : string)
  (k : JSON -> M (option B)) (w : World) :
  or_print_none (do_get self endpoint) k w
  = match fetched endpoint (next_outcome self endpoint w) with
    | Ret data => k data (add_request (url_of self endpoint) w)
    | Raise (SocketError msg ep) =>
        (Ret None,
         add_line (get_error msg ep) (add_request (url_of self endpoint) w))
    | Raise e => (Raise e, add_request (url_of self endpoint) w)
    end.
Proof.
  unfold or_print_none. rewrite do_get_fetched.
  destruct (fetched endpoint (next_outcome self endpoint w)) as [d | e];
    [reflexivity | destruct e; reflexivity].
Qed.

(** ** Inventory search *)

Lemma getitem_id (s v : JSON) :
  slot_id s = Some v -> getitem s "id" = Ret v.
Proof. destruct s; simpl; try discriminate. now intros ->. Qed.

Lemma getitem_quantity (s q : JSON) :
  slot_quantity s = Some q -> getitem s "quantity" = Ret q.
Proof. destruct s; simpl; try discriminate. now intros ->. Qed.

Lemma any_id_slots (item_id : Z) (slots : list JSON) :
  Forall is_slot slots ->
  any_id item_id slots = Ret (existsb (holds item_id) slots).
Proof.
  induction 1 as [| s slots [Hid _] _ IH]; simpl; [reflexivity |].
  unfold holds at 1.
  destruct (slot_id s) as [v |] eqn:E; [| contradiction].
  rewrite (getitem_id _ _ E).
  destruct (eq_int v item_id); [reflexivity | exact IH].
Qed.

(** The pairs of the slots that hold the item, with indices counted
    from [start]. *)
Lemma find_from_slots (item_id : Z) (slots : list JSON) :
  Forall is_slot slots ->
  forall start,
    find_from start item_id slots
    = Ret (map (fun p => (fst p, match slot_quantity (snd p) with
                                 | Some q => q
                                 | None => JNull
                                 end))
             (filter (fun p => holds item_id (snd p))
                (combine (seq start (List.length slots)) slots))).
Proof.
  induction 1 as [| s slots [Hid Hq] _ IH]; intros start; simpl;
    [reflexivity |].
  unfold holds at 1.
  destruct (slot_id s) as [v |] eqn:E; [| contradiction].
  destruct (slot_quantity s) as [q |] eqn:Q; [| contradiction].
  rewrite (getitem_id _ _ E).
  destruct (eq_int v item_id); simpl.
  - rewrite (getitem_quantity _ _ Q), IH, Q. reflexivity.
  - apply IH.
Qed.

Lemma get_if_item_in_inv_slots (self : Socket) (item_id : Z) (w : World)
  (slots : list JSON) :
  next_outcome self (inv_endpoint self) w = ok (JList slots) ->
  Forall is_slot slots ->
  get_if_item_in_inv self item_id w
  = (Ret (Some (existsb (holds item_id) slots)),
     add_request (url_of self (inv_endpoint self)) w).
Proof.
  intros Hnet Hs. unfold get_if_item_in_inv.
  rewrite or_print_none_fetched, Hnet, fetched_ok.
  unfold bind, lift, ret; simpl. now rewrite (any_id_slots _ _ Hs).
Qed.

Lemma find_item_in_inv_slots (self : Socket) (item_id : Z) (w : World)
  (slots : list JSON) :
  next_outcome self (inv_endpoint self) w = ok (JList slots) ->
  Forall is_slot slots ->
  find_item_in_inv self item_id w
  = (Ret (Some (matching_slots item_id slots)),
     add_request (url_of self (inv_endpoint self)) w).
Proof.
  intros Hnet Hs. unfold find_item_in_inv.
  rewrite or_print_none_fetched, Hnet, fetched_ok.
  unfold bind, lift, ret; simpl. now rewrite (find_from_slots _ _ Hs).
Qed.

(** Membership in an enumeration that counts from [start]. *)
Lemma in_enumerate {A} (l : list A) : forall (start i : nat) (x : A),
  In (i, x) (combine (seq start (List.length l)) l) <->
  (start <= i)%nat /\ nth_error l (i - start) = Some x.
Proof.
  induction l as [| a l IH]; intros start i x; simpl.
  - split; [tauto | intros [_ H]; destruct (i - start)%nat; discriminate].
  - rewrite IH. split.
    + intros [[= <- <-] | [Hle Hn]].
      * rewrite Nat.sub_diag. split; [lia | reflexivity].
      * split; [lia |].
        replace (i - start)%nat with (S (i - S start)) by lia. exact Hn.
    + intros [Hle Hn].
      destruct (i - start)%nat as [| k] eqn:E; simpl in Hn.
      * left. injection Hn as ->. f_equal. lia.
      * right. split; [lia |].
        replace (i - S start)%nat with k by lia. exact Hn.
Qed.

(** What [matching_slots] lists: the index and the quantity of every
    slot that holds the item, and nothing else. *)
Lemma matching_slots_In (item_id : Z) (slots : list JSON) (i : nat)
  (q : JSON) :
  Forall is_slot slots ->
  (In (i, q) (matching_slots item_id slots) <->
   exists s, nth_error slots i = Some s /\ holds item_id s = true
             /\ slot_quantity s = Some q).
Proof.
  intros Hs. unfold matching_slots. rewrite in_map_iff. split.
  - intros ([j s] & Heq & Hin). apply filter_In in Hin as [Hin Hh].
    simpl in *. injection Heq as -> Hq.
    apply in_enumerate in Hin as [_ Hnth]. rewrite Nat.sub_0_r in Hnth.
    exists s. repeat split; try assumption.
    rewrite Forall_forall in Hs.
    destruct (Hs s (nth_error_In _ _ Hnth)) as [_ Hq'].
    destruct (slot_quantity s); [now subst | contradiction].
  - intros (s & Hnth & Hh & Hq). exists (i, s). simpl. rewrite Hq.
    split; [reflexivity |]. apply filter_In. split; [| exact Hh].
    apply in_enumerate. rewrite Nat.sub_0_r. split; [lia | exact Hnth].
Qed.

Lemma matching_slots_none (item_id : Z) (slots : list JSON) :
  (forall s, In s slots -> holds item_id s = false) ->
  matching_slots item_id slots = [].
Proof.
  unfold matching_slots. generalize 0%nat.
  induction slots as [| a l IH]; intros start Hnone; simpl; [reflexivity |].
  rewrite (Hnone a (or_introl eq_refl)).
  apply IH. intros s Hin. apply Hnone. now right.
Qed.

(** C6. On an inventory response, a list of slot records with an 'id'
    and a 'quantity', [get_if_item_in_inv] returns [True] exactly when
    some slot holds the item, and [find_item_in_inv] returns the pairs
    (slot index, quantity) of the slots that hold it, in slot order,
    the empty list when none does. *)
Theorem inventory_search (self : Socket) (item_id : Z) (w : World)
  (slots : list JSON) :
  next_outcome self (inv_endpoint self) w = ok (JList slots) ->
  Forall is_slot slots ->
  (exists b,
      fst (get_if_item_in_inv self item_id w) = Ret (Some b)
      /\ (b = true <-> exists s, In s slots /\ holds item_id s = true))
  /\ fst (find_item_in_inv self item_id w)
     = Ret (Some (matching_slots item_id slots))
  /\ ((forall s, In s slots -> holds item_id s = false) ->
      fst (find_item_in_inv self item_id w) = Ret (Some [])).
Proof.
  intros Hnet Hs. split; [| split].
  - exists (existsb (holds item_id) slots).
    rewrite (get_if_item_in_inv_slots _ _ _ _ Hnet Hs).
    split; [reflexivity | apply existsb_exists].
  - now rewrite (find_item_in_inv_slots _ _ _ _ Hnet Hs).
  - intros Hnone. rewrite (find_item_in_inv_slots _ _ _ _ Hnet Hs).
    simpl. now rewrite (matching_slots_none _ _ Hnone).
Qed.

(** An inventory of coins, a lobster, an empty slot and more coins. *)
Lemma inventory_search_witness :
  let inv := [slot 995 30; slot 379 1; slot (-1) 0; slot 995 12] in
  let w := always (ok (JList inv)) 0 in
  fst (get_if_item_in_inv init 995 w) = Ret (Some true)
  /\ fst (find_item_in_inv init 995 w)
     = Ret (Some [(0%nat, JInt 30); (3%nat, JInt 12)])
  /\ fst (find_item_in_inv init 4151 w) = Ret (Some []).
Proof.
  intros inv w.
  assert (Hs : Forall is_slot inv)
    by (repeat constructor; discriminate).
  destruct (inventory_search init 995 w inv eq_refl Hs)
    as ((b & Hb & Hiff) & Hfind & _).
  destruct (inventory_search init 4151 w inv eq_refl Hs)
    as (_ & _ & Hnone).
  split; [| split].
  - rewrite Hb. do 2 f_equal. apply Hiff.
    exists (slot 995 30). split; [now left | reflexivity].
  - rewrite Hfind. reflexivity.
  - apply Hnone. intros s Hin. simpl in Hin.
    repeat destruct Hin as [<- | Hin]; try reflexivity. contradiction.
Defined.

(** C10. On an inventory response, [get_if_item_in_inv] returns [True]
    exactly when [find_item_in_inv] returns a list that is not empty. *)
Theorem membership_agrees_with_search (self : Socket) (item_id : Z)
  (w : World) (slots : list JSON) :
  next_outcome self (inv_endpoint self) w = ok (JList slots) ->
  Forall is_slot slots ->
  exists b l,
    fst (get_if_item_in_inv self item_id w) = Ret (Some b)
    /\ fst (find_item_in_inv self item_id w) = Ret (Some l)
    /\ (b = true <-> l <> []).
Proof.
  intros Hnet Hs.
  exists (existsb (holds item_id) slots), (matching_slots item_id slots).
  rewrite (get_if_item_in_inv_slots _ _ _ _ Hnet Hs).
  rewrite (find_item_in_inv_slots _ _ _ _ Hnet Hs).
  split; [reflexivity | split; [reflexivity |]].
  unfold matching_slots. generalize 0%nat. clear.
  induction slots as [| a l IH]; intros start; simpl.
  - split; [discriminate | congruence].
  - destruct (holds item_id a); simpl.
    + split; [discriminate | reflexivity].
    + apply IH.
Qed.

Lemma membership_agrees_with_search_witness :
  let inv := [slot 379 1; slot 995 30] in
  let w := always (ok (JList inv)) 0 in
  exists b l,
    fst (get_if_item_in_inv init 995 w) = Ret (Some b)
    /\ fst (find_item_in_inv init 995 w) = Ret (Some l)
    /\ (b = true <-> l <> []).
Proof.
  intros inv w.
  apply (membership_agrees_with_search init 995 w inv).
  - reflexivity.
  - repeat constructor; discriminate.
Defined.

(** ** Stat lookups *)

(** The case tables at the ASCII code points. *)
Lemma ascii_points_checked :
  forallb ascii_point_checked (map N.of_nat (seq 0 128)) = true.
Proof. vm_compute. reflexivity. Qed.

Lemma ascii_point (n : N) :
  (n < 128)%N ->
  lower_full n = [code (lower_char (byte n))]
  /\ title_full n = [code (upper_char (byte n))]
  /\ n <> 931%N
  /\ ((65 <= n <= 90)%N ->
      case_ignorable n = false /\ case_ignorable (n + 32) = false
      /\ cased n = cased (n + 32)).
Proof.
  intros Hn.
  pose proof ascii_points_checked as H.
  rewrite forallb_forall in H.
  specialize (H n).
  assert (Hin : In n (map N.of_nat (seq 0 128))).
  { apply in_map_iff. exists (N.to_nat n). split; [lia |].
    apply in_seq. lia. }
  specialize (H Hin). unfold ascii_point_checked in H.
  apply andb_true_iff in H as [H H4].
  apply andb_true_iff in H as [H H3].
  apply andb_true_iff in H as [H1 H2].
  destruct (list_eq_dec N.eq_dec (lower_full n) _) as [E1 |];
    [| discriminate].
  destruct (list_eq_dec N.eq_dec (title_full n) _) as [E2 |];
    [| discriminate].
  split; [exact E1 |]. split; [exact E2 |].
  split; [now apply negb_true_iff, N.eqb_neq in H3 |].
  intros Hr.
  replace (Nat.leb 65 (N.to_nat n) && Nat.leb (N.to_nat n) 90)%bool
    with true in H4
    by (symmetry; apply andb_true_iff; split; apply Nat.leb_le; lia).
  simpl in H4. apply andb_true_iff in H4 as [H4 H7].
  apply andb_true_iff in H4 as [H5 H6].
  apply negb_true_iff in H5, H6. apply Bool.eqb_prop in H7.
  auto.
Qed.

Lemma code_lt_256 (c : ascii) : (code c < 256)%N.
Proof. apply N_ascii_bounded. Qed.












(** *** Names in ASCII *)

Lemma lower_char_ascii (c : ascii) :
  (code c <? 128)%N = true -> (code (lower_char c) <? 128)%N = true.
Proof.
  destruct c as [[|] [|] [|] [|] [|] [|] [|] [|]];
    vm_compute; congruence.
Qed.

Lemma upper_char_ascii (c : ascii) :
  (code c <? 128)%N = true -> (code (upper_char c) <? 128)%N = true.
Proof.
  destruct c as [[|] [|] [|] [|] [|] [|] [|] [|]];
    vm_compute; congruence.
Qed.

Lemma byte_code (c : ascii) : byte (code c) = c.
Proof. apply ascii_N_embedding. Qed.

Lemma opens_ascii (n : N) : (n < 128)%N -> opens n = ([n], None).
Proof.
  intros H. unfold opens.
  destruct (N.ltb_spec n 192); [reflexivity | lia].
Qed.

Lemma decode_ascii (l : list ascii) :
  is_ascii_text l = true -> decode_from None l = map code l.
Proof.
  induction l as [| c l IH]; simpl; [reflexivity |].
  intros H. apply andb_true_iff in H as [Hc Hl].
  apply N.ltb_lt in Hc. rewrite (opens_ascii _ Hc). simpl.
  now rewrite IH.
Qed.

Lemma encode_ascii (l : list ascii) :
  is_ascii_text l = true -> flat_map encode (map code l) = l.
Proof.
  induction l as [| c l IH]; simpl; [reflexivity |].
  intros H. apply andb_true_iff in H as [Hc Hl].
  unfold encode at 1. rewrite Hc, byte_code. simpl. now rewrite IH.
Qed.

Lemma lower_from_ascii (l : list ascii) :
  is_ascii_text l = true ->
  forall before,
    lower_from before (map code l) = map code (map lower_char l).
Proof.
  induction l as [| c l IH]; simpl; [reflexivity |].
  intros H before. apply andb_true_iff in H as [Hc Hl].
  apply N.ltb_lt in Hc.
  destruct (ascii_point (code c) Hc) as (Hlow & _ & Hs & _).
  unfold lower_at. apply N.eqb_neq in Hs. rewrite Hs, Hlow, byte_code.
  simpl. now rewrite IH.
Qed.

Lemma map_lower_char_ascii (l : list ascii) :
  is_ascii_text l = true -> is_ascii_text (map lower_char l) = true.
Proof.
  induction l as [| c l IH]; simpl; [reflexivity |].
  intros H. apply andb_true_iff in H as [Hc Hl].
  now rewrite (lower_char_ascii _ Hc), IH.
Qed.

Lemma chars_ascii_lower (s : string) :
  chars (ascii_lower s) = map lower_char (chars s).
Proof. induction s as [| c s IH]; simpl; [reflexivity | now rewrite IH]. Qed.

Lemma chars_str_of (l : list ascii) : chars (str_of l) = l.
Proof. apply list_ascii_of_string_of_list_ascii. Qed.

Lemma str_of_chars_id (s : string) : str_of (chars s) = s.
Proof. apply string_of_list_ascii_of_string. Qed.

(** On ASCII text [str.lower] and [str.capitalize] change the letters
    A to Z, a to z, and nothing else. *)
Lemma lower_ascii (s : string) : is_ascii s -> lower s = ascii_lower s.
Proof.
  intros H. unfold lower, points, of_points.
  rewrite (decode_ascii _ H), (lower_from_ascii _ H).
  rewrite encode_ascii by now apply map_lower_char_ascii.
  rewrite <- chars_ascii_lower. apply str_of_chars_id.
Qed.

Lemma capitalize_ascii (s : string) :
  is_ascii s -> capitalize s = ascii_capitalize s.
Proof.
  intros H. unfold capitalize, points, of_points.
  rewrite (decode_ascii _ H).
  destruct s as [| c s]; [reflexivity |].
  unfold is_ascii in H. simpl in H.
  apply andb_true_iff in H as [Hc Hl]. simpl.
  assert (Hc' := Hc). apply N.ltb_lt in Hc'.
  destruct (ascii_point (code c) Hc') as (_ & Htitle & _).
  rewrite Htitle, byte_code, (lower_from_ascii _ Hl). simpl.
  unfold encode at 1. rewrite (upper_char_ascii _ Hc), byte_code. simpl.
  rewrite encode_ascii by now apply map_lower_char_ascii.
  now rewrite <- chars_ascii_lower, str_of_chars_id.
Qed.

Lemma is_ascii_lower (s : string) : is_ascii s -> is_ascii (ascii_lower s).
Proof.
  unfold is_ascii. rewrite chars_ascii_lower. apply map_lower_char_ascii.
Qed.

Lemma is_ascii_capitalize (s : string) :
  is_ascii s -> is_ascii (ascii_capitalize s).
Proof.
  unfold is_ascii. destruct s as [| c s]; simpl; [trivial |].
  intros H. apply andb_true_iff in H as [Hc Hl].
  rewrite (upper_char_ascii _ Hc), chars_ascii_lower. simpl.
  now apply map_lower_char_ascii.
Qed.

Lemma lower_char_idem (c : ascii) : lower_char (lower_char c) = lower_char c.
Proof.
  destruct c as [[|] [|] [|] [|] [|] [|] [|] [|]]; vm_compute; reflexivity.
Qed.

Lemma lower_upper_char (c : ascii) : lower_char (upper_char c) = lower_char c.
Proof.
  destruct c as [[|] [|] [|] [|] [|] [|] [|] [|]]; vm_compute; reflexivity.
Qed.

Lemma ascii_lower_idem (s : string) :
  ascii_lower (ascii_lower s) = ascii_lower s.
Proof.
  induction s as [| c s IH]; simpl; [reflexivity |].
  now rewrite lower_char_idem, IH.
Qed.

(** Normalizing an ASCII name a second time changes nothing. *)
Lemma normalize_ascii_idem (s : string) :
  is_ascii s ->
  capitalize (lower (capitalize (lower s))) = capitalize (lower s).
Proof.
  intros H.
  rewrite (lower_ascii s H).
  rewrite (capitalize_ascii _ (is_ascii_lower s H)).
  rewrite (lower_ascii _ (is_ascii_capitalize _ (is_ascii_lower s H))).
  rewrite capitalize_ascii
    by (apply is_ascii_lower, is_ascii_capitalize, is_ascii_lower, H).
  destruct s as [| c s]; simpl; [reflexivity |].
  now rewrite lower_upper_char, lower_char_idem, !ascii_lower_idem.
Qed.

(** A stat lookup, by the table that the service answers with. *)
Lemma stat_lookup_table (field : string) (self : Socket)
  (stat_name : string) (w : World) (data : JSON) :
  next_outcome self (stats_endpoint self) w = ok data ->
  let name := capitalize (lower stat_name) in
  let w1 := add_request (url_of self (stats_endpoint self)) w in
  stat_lookup field self stat_name w
  = match first_stat field name data with
    | Ret value => (Ret (Some value), w1)
    | Raise StopIteration =>
        (Ret None, add_line ("Invalid stat name: " ++ name) w1)
    | Raise e => (Raise e, w1)
    end.
Proof.
  intros Hnet name w1. unfold stat_lookup.
  rewrite or_print_none_fetched, Hnet, fetched_ok. fold name w1.
  destruct (first_stat field name data) as [v | e];
    [reflexivity | destruct e; reflexivity].
Qed.




(** C8. The three stat lookups start their scan at the second entry of
    the table: whatever stands first, be it a record of the requested
    name, the lookup returns the same. *)
Theorem stat_lookups_skip_first (self : Socket) (stat_name : string)
  (w w' : World) (first first' : JSON) (rest : list JSON) :
  next_outcome self (stats_endpoint self) w = ok (JList (first :: rest)) ->
  next_outcome self (stats_endpoint self) w' = ok (JList (first' :: rest)) ->
  fst (get_stat_level self stat_name w)
  = fst (get_stat_level self stat_name w')
  /\ fst (get_stat_xp self stat_name w)
     = fst (get_stat_xp self stat_name w')
  /\ fst (get_stat_xp_gained self stat_name w)
     = fst (get_stat_xp_gained self stat_name w').
Proof.
  intros H H'. unfold get_stat_level, get_stat_xp, get_stat_xp_gained.
  rewrite !(stat_lookup_table _ _ _ _ _ H).
  rewrite !(stat_lookup_table _ _ _ _ _ H').
  unfold first_stat; simpl.
  repeat split;
    match goal with
    | |- context [next_stat ?f ?n ?l] =>
        destruct (next_stat f n l) as [v | e];
        [reflexivity | destruct e; reflexivity]
    end.
Qed.

(** A table whose first entry is an Attack record: it is passed over for
    the Attack record that follows, as a header would be. *)
Lemma stat_lookups_skip_first_witness :
  let rest := [stat_record "Attack" 40 37224 120] in
  let w := always (ok (JList (stat_record "Attack" 99 13034431 5 :: rest))) 0 in
  let w' := always (ok (JList (stat_record "Overall" 32 1154 0 :: rest))) 0 in
  (fst (get_stat_level init "attack" w)
   = fst (get_stat_level init "attack" w')
   /\ fst (get_stat_xp init "attack" w)
      = fst (get_stat_xp init "attack" w')
   /\ fst (get_stat_xp_gained init "attack" w)
      = fst (get_stat_xp_gained init "attack" w'))
  /\ fst (get_stat_level init "attack" w) = Ret (Some 40).
Proof.
  intros rest w w'. split.
  - apply (stat_lookups_skip_first init "attack" w w'
             (stat_record "Attack" 99 13034431 5)
             (stat_record "Overall" 32 1154 0) rest); reflexivity.
  - reflexivity.
Defined.

(** A table that holds the requested stat in its first entry only. *)
Example first_entry_is_not_found :
  let w := always (ok (JList [stat_record "Attack" 99 13034431 5;
                              stat_record "Defence" 1 0 0])) 0 in
  fst (get_stat_level init "attack" w) = Ret None
  /\ fst (get_stat_xp init "attack" w) = Ret None
  /\ fst (get_stat_xp_gained init "attack" w) = Ret None.
Proof. repeat split. Qed.

Lemma getitem_stat (r v : JSON) :
  stat_field r = Some v -> getitem r "stat" = Ret v.
Proof. destruct r; simpl; try discriminate. now intros ->. Qed.

Lemma next_stat_absent (field stat_name : string) (records : list JSON) :
  (forall r, In r records ->
             stat_field r <> None /\ stat_is stat_name r = false) ->
  next_stat field stat_name records = Raise StopIteration.
Proof.
  induction records as [| r l IH]; intros H; simpl; [reflexivity |].
  destruct (H r (or_introl eq_refl)) as [Hf Hn].
  unfold stat_is in Hn.
  destruct (stat_field r) as [v |] eqn:E; [| contradiction].
  rewrite (getitem_stat _ _ E), Hn.
  apply IH. intros r' Hin. apply H. now right.
Qed.

(** C9. On a stats table none of whose records after the first carries
    the normalized name, [get_stat_level] returns [None], having
    printed "Invalid stat name: " and the normalized name; it does not
    raise. *)
Theorem stat_level_of_unknown_name (self : Socket) (stat_name : string)
  (w : World) (table : list JSON) :
  let name := capitalize (lower stat_name) in
  next_outcome self (stats_endpoint self) w = ok (JList table) ->
  (forall r, In r (tl table) ->
             stat_field r <> None /\ stat_is name r = false) ->
  get_stat_level self stat_name w
  = (Ret None,
     add_line ("Invalid stat name: " ++ name)
       (add_request (url_of self (stats_endpoint self)) w)).
Proof.
  intros name Hnet Habs. unfold get_stat_level.
  rewrite (stat_lookup_table _ _ _ _ _ Hnet). fold name.
  unfold first_stat; simpl.
  now rewrite (next_stat_absent _ _ _ Habs).
Qed.

Lemma stat_level_of_unknown_name_witness :
  let table := [stat_record "Overall" 32 1154 0;
                stat_record "Attack" 40 37224 120;
                stat_record "Defence" 1 0 0] in
  let w := always (ok (JList table)) 0 in
  get_stat_level init "nonexistent_stat" w
  = (Ret None,
     add_line "Invalid stat name: Nonexistent_stat"
       (add_request "http://localhost:8081/stats" w)).
Proof.
  intros table w.
  apply (stat_level_of_unknown_name init "nonexistent_stat" w table).
  - reflexivity.
  - intros r Hin. simpl in Hin.
    destruct Hin as [<- | [<- | []]]; split; (discriminate || reflexivity).
Defined.

(** ** Faults stay inside the accessors *)

Create HintDb quiet.

Lemma faultless_rbind {A B} (r : Result A) (k : A -> Result B) :
  faultless r -> (forall a, faultless (k a)) -> faultless (rbind r k).
Proof. destruct r as [a | e]; simpl; auto. Qed.

Lemma faultless_getitem (x : JSON) (key : string) : faultless (getitem x key).
Proof.
  destruct x; simpl; trivial. destruct (assoc key l); simpl; trivial.
Qed.

Lemma faultless_int_of_str (s : string) : faultless (int_of_str s).
Proof.
  unfold int_of_str.
  match goal with
  | |- faultless (match ?p with _ => _ end) => destruct p
  end; simpl; trivial.
Qed.

Lemma faultless_int (x : JSON) : faultless (int x).
Proof. destruct x; simpl; trivial. apply faultless_int_of_str. Qed.

Lemma faultless_str_split (x : JSON) (sep : ascii) :
  faultless (str_split x sep).
Proof. destruct x; simpl; trivial. Qed.

Lemma faultless_iter (x : JSON) : faultless (iter x).
Proof. destruct x; simpl; trivial. Qed.

Lemma faultless_iter_from_1 (x : JSON) : faultless (iter_from_1 x).
Proof. destruct x; simpl; trivial. Qed.

#[local] Hint Resolve faultless_getitem faultless_int_of_str faultless_int
  faultless_str_split faultless_iter faultless_iter_from_1 : quiet.

Lemma faultless_int_at (data : JSON) (outer inner : string) :
  faultless (int_at data outer inner).
Proof.
  unfold int_at. repeat (apply faultless_rbind; intros); auto with quiet.
Qed.

Lemma faultless_next_stat (field name : string) (items : list JSON) :
  faultless (next_stat field name items).
Proof.
  induction items as [| i rest IH]; simpl; trivial.
  pose proof (faultless_getitem i "stat") as H.
  destruct (getitem i "stat") as [v | e]; [| exact H].
  destruct (eq_str v name); [| exact IH].
  apply faultless_rbind; auto with quiet.
Qed.

Lemma faultless_first_stat (field name : string) (data : JSON) :
  faultless (first_stat field name data).
Proof.
  unfold first_stat. apply faultless_rbind; auto with quiet.
  intros. apply faultless_next_stat.
Qed.

Lemma faultless_any_id (item_id : Z) (slots : list JSON) :
  faultless (any_id item_id slots).
Proof.
  induction slots as [| i rest IH]; simpl; trivial.
  pose proof (faultless_getitem i "id") as H.
  destruct (getitem i "id") as [v | e]; [| exact H].
  destruct (eq_int v item_id); [exact I | exact IH].
Qed.

Lemma faultless_find_from (item_id : Z) (slots : list JSON) :
  forall start, faultless (find_from start item_id slots).
Proof.
  induction slots as [| i rest IH]; intros start; simpl; trivial.
  pose proof (faultless_getitem i "id") as H.
  destruct (getitem i "id") as [v | e]; [| exact H].
  destruct (eq_int v item_id); [| apply IH].
  pose proof (faultless_getitem i "quantity") as Hq.
  destruct (getitem i "quantity") as [q | e]; [| exact Hq].
  apply faultless_rbind; [apply IH | intros; exact I].
Qed.

Lemma faultless_ids_of (items : list JSON) : faultless (ids_of items).
Proof.
  induction items as [| i rest IH]; simpl; trivial.
  pose proof (faultless_getitem i "id") as H.
  destruct (getitem i "id") as [v | e]; [| exact H].
  apply faultless_rbind; [exact IH | intros; exact I].
Qed.

#[local] Hint Resolve faultless_int_at faultless_next_stat
  faultless_first_stat faultless_any_id faultless_find_from
  faultless_ids_of faultless_rbind : quiet.

Lemma quiet_ret {A} (a : A) : quiet (ret a).
Proof. intros w. simpl. auto. Qed.

Lemma quiet_lift {A} (r : Result A) : faultless r -> quiet (lift r).
Proof. intros H w. simpl. auto. Qed.

Lemma quiet_raise {A} (e : Exc) :
  faultless (@Raise A e) -> quiet (@raise A e).
Proof. intros H w. simpl. auto. Qed.

Lemma quiet_print (line : string) : quiet (print line).
Proof. intros w. simpl. auto. Qed.

Lemma quiet_bind {A B} (m : M A) (k : A -> M B) :
  quiet m -> (forall a, quiet (k a)) -> quiet (bind m k).
Proof.
  intros Hm Hk w. unfold bind.
  destruct (Hm w) as [Hf Hs]. destruct (m w) as [[a | e] w1]; simpl in *.
  - destruct (Hk a w1) as [Hf' Hs']. rewrite <- Hs. auto.
  - auto.
Qed.

#[local] Hint Resolve quiet_ret quiet_lift quiet_print quiet_bind : quiet.

(** The part of an accessor that follows the fetch, for each shape the
    source has. *)
Ltac quiet_body :=
  repeat first
    [ apply quiet_bind; [| intro]
    | apply quiet_ret
    | apply quiet_print
    | apply quiet_lift; solve [auto 6 with quiet]
    | apply quiet_raise; exact I ].

Lemma fetched_Raise_fault (endpoint : string) (o : Outcome)
  (msg ep : string) :
  fetched endpoint o = Raise (SocketError msg ep) ->
  fault_of o = Some msg /\ ep = endpoint.
Proof.
  unfold fetched. destruct (fault_of o) as [m |].
  - intros [= -> ->]. auto.
  - destruct o as [e | r]; [discriminate |].
    destruct (json r); discriminate.
Qed.

(** An accessor that fetches once: its result is not a raised
    [SocketError], it has sent the one request, and a fault of that
    request has become [None] and a printed line. *)
Lemma one_fetch_run {B} (self : Socket) (endpoint : string)
  (k : JSON -> M (option B)) (w : World) :
  (forall data, quiet (k data)) ->
  let run := or_print_none (do_get self endpoint) k w in
  faultless (fst run)
  /\ sent (snd run) = (sent w ++ [url_of self endpoint])%list
  /\ (forall msg,
        fault_of (next_outcome self endpoint w) = Some msg ->
        run = (Ret None,
               add_line (get_error msg endpoint)
                 (add_request (url_of self endpoint) w))).
Proof.
  intros Hk run. subst run. rewrite or_print_none_fetched.
  destruct (fetched endpoint (next_outcome self endpoint w))
    as [data | e] eqn:F.
  - destruct (Hk data (add_request (url_of self endpoint) w)) as [Hf Hs].
    repeat split; trivial.
    intros msg Hm. rewrite (fetched_fault _ _ _ Hm) in F. discriminate.
  - destruct e; simpl; repeat split; trivial;
      intros msg Hm; rewrite (fetched_fault _ _ _ Hm) in F;
      try discriminate.
    now injection F as -> ->.
Qed.

Lemma quiet_stat_body (field name : string) (data : JSON) :
  quiet (match first_stat field name data with
         | Ret value => ret (Some value)
         | Raise StopIteration =>
             print ("Invalid stat name: " ++ name) ;;; ret None
         | Raise e => raise e
         end).
Proof.
  pose proof (faultless_first_stat field name data) as H.
  destruct (first_stat field name data) as [v | e].
  - apply quiet_ret.
  - destruct e; try (apply quiet_raise; exact I);
      [contradiction | quiet_body].
Qed.

Lemma quiet_hitpoints_body (data : JSON) :
  quiet (hitpoints_data <- lift (getitem data "health") ;;
         parts <- lift (str_split hitpoints_data "/") ;;
         match parts with
         | [cur_hp; max_hp] =>
             c <- lift (int_of_str cur_hp) ;;
             m <- lift (int_of_str max_hp) ;;
             ret (Some (c, m))
         | _ => raise ValueError
         end).
Proof.
  apply quiet_bind; [quiet_body | intro v].
  apply quiet_bind; [quiet_body | intro parts].
  destruct parts as [| a [| b [| c l]]]; quiet_body.
Qed.

(** Every accessor but the polling one is a single fetch followed by a
    quiet extraction. *)
Lemma call_shape (fuel : nat) (self : Socket) (a : Accessor) :
  (forall n t, a <> a_wait_til_gained_xp n t) ->
  exists (B : Type) (f : B -> Value) (k : JSON -> M (option B)),
    call fuel self a
    = once f (or_print_none (do_get self (endpoint_of self a)) k)
    /\ forall data, quiet (k data).
Proof.
  intros Hw.
  destruct a;
    try (exfalso; eapply Hw; reflexivity);
    simpl;
    try (eexists _, _, _; split; [reflexivity |];
         intro data; simpl;
         first [ apply quiet_stat_body
               | apply quiet_hitpoints_body
               | quiet_body ]).
Qed.

Section Polling.

Variables (self : Socket) (name : string) (starting_xp stop_time : Z).

Local Abbreviation ep := (stats_endpoint self).
Local Abbreviation url := (url_of self (stats_endpoint self)).

(** A run of the polling loop: its result is not a raised
    [SocketError]; a request of the run that met a fault ended the run
    with [None] and the fault as the one line printed. *)
Lemma poll_xp_run : forall fuel v r v',
  poll_xp fuel self name starting_xp stop_time v = Some (r, v') ->
  faultless r
  /\ net v' = net v
  /\ (List.length (sent v) <= List.length (sent v'))%nat
  /\ (forall k msg,
        (List.length (sent v) <= k < List.length (sent v'))%nat ->
        fault_of (net v k url) = Some msg ->
        r = Ret None
        /\ stdout v' = (stdout v ++ [get_error msg ep])%list).
Proof.
  induction fuel as [| fuel IH]; intros v r v' H; simpl in H;
    [discriminate |].
  destruct (clock v (reads v) <? stop_time).
  - rewrite do_get_fetched in H. fold ep url in H.
    assert (Hnext : next_outcome self ep (add_read v)
                    = net v (List.length (sent v)) url) by reflexivity.
    destruct (fetched ep (next_outcome self ep (add_read v)))
      as [data | e] eqn:F.
    + assert (Hk : forall k msg,
                (k < S (List.length (sent v)))%nat ->
                (List.length (sent v) <= k)%nat ->
                fault_of (net v k url) = Some msg -> False).
      { intros k msg Hlt Hle Hm.
        assert (k = List.length (sent v)) as -> by lia.
        rewrite <- Hnext in Hm.
        rewrite (fetched_fault ep _ _ Hm) in F. discriminate. }
      pose proof (faultless_first_stat "xp" name data) as Hfs.
      destruct (first_stat "xp" name data) as [final_xp | e].
      * destruct (final_xp >? starting_xp).
        -- injection H as <- <-. simpl. rewrite length_app. simpl.
           repeat split; trivial; try lia;
             exfalso; apply (Hk k msg); lia || assumption.
        -- apply IH in H as (Hf & Hn & Hl & Hfault).
           simpl in Hn, Hl, Hfault. rewrite length_app in Hl, Hfault.
           simpl in Hl, Hfault.
           repeat split; trivial; try lia;
             destruct (Nat.eq_dec k (List.length (sent v))) as [-> | Hne];
             try (exfalso; apply (Hk (List.length (sent v)) msg);
                  lia || assumption);
             apply (Hfault k msg); lia || assumption.
      * injection H as <- <-. simpl. rewrite length_app. simpl.
        repeat split; trivial; try lia;
          exfalso; apply (Hk k msg); lia || assumption.
    + destruct e; injection H as <- <-; simpl; rewrite length_app; simpl;
        repeat split; trivial; try lia;
        assert (k = List.length (sent v)) as -> by lia;
        rewrite <- Hnext in *;
        match goal with
        | Hm : fault_of _ = Some _ |- _ =>
            rewrite (fetched_fault ep _ _ Hm) in F
        end;
        try discriminate; now injection F as -> ->.
  - injection H as <- <-. simpl.
    repeat split; trivial; try lia.
Qed.

(** One turn of the loop, by what the clock and the service say. *)
Lemma poll_xp_timed_out (fuel : nat) (v : World) :
  stop_time <= clock v (reads v) ->
  poll_xp (S fuel) self name starting_xp stop_time v
  = Some (Ret None, add_read v).
Proof.
  intros H. simpl.
  destruct (Z.ltb_spec (clock v (reads v)) stop_time); [lia | reflexivity].
Qed.

Lemma poll_xp_fault (fuel : nat) (v : World) (msg : string) :
  clock v (reads v) < stop_time ->
  fault_of (next_outcome self ep v) = Some msg ->
  poll_xp (S fuel) self name starting_xp stop_time v
  = Some (Ret None,
          add_line (get_error msg ep) (add_request url (add_read v))).
Proof.
  intros H Hm. simpl.
  destruct (Z.ltb_spec (clock v (reads v)) stop_time); [| lia].
  rewrite do_get_fetched.
  change (next_outcome self (stats_endpoint self) (add_read v))
    with (next_outcome self ep v).
  now rewrite (fetched_fault _ _ _ Hm).
Qed.

Lemma poll_xp_polled (fuel : nat) (v : World) (data : JSON) (xp : Z) :
  clock v (reads v) < stop_time ->
  next_outcome self ep v = ok data ->
  first_stat "xp" name data = Ret xp ->
  poll_xp (S fuel) self name starting_xp stop_time v
  = if xp >? starting_xp
    then Some (Ret (Some xp), add_request url (add_read v))
    else poll_xp fuel self name starting_xp stop_time
           (add_request url (add_read v)).
Proof.
  intros H Hd Hx. simpl.
  destruct (Z.ltb_spec (clock v (reads v)) stop_time); [| lia].
  rewrite do_get_fetched.
  change (next_outcome self (stats_endpoint self) (add_read v))
    with (next_outcome self ep v).
  now rewrite Hd, fetched_ok, Hx.
Qed.

End Polling.

Lemma wait_enters_loop (fuel : nat) (self : Socket) (stat_name : string)
  (wait_time : Z) (w w1 : World) (starting_xp : Z) :
  get_stat_xp self (capitalize (lower stat_name)) w
  = (Ret (Some starting_xp), w1) ->
  wait_til_gained_xp fuel self stat_name wait_time w
  = poll_xp fuel self (capitalize (lower stat_name)) starting_xp
      (clock w1 (reads w1) + wait_time) (add_read w1).
Proof.
  intros H. unfold wait_til_gained_xp. now rewrite H.
Qed.

Lemma map_result_faultless {A B} (f : A -> B)
  (x : Result (option A) * World) :
  faultless (fst x) -> faultless (fst (map_result f x)).
Proof. destruct x as [[v | e] w]; simpl; trivial. Qed.

Lemma faultless_neq {A} (r : Result A) :
  faultless r -> forall msg ep, r <> Raise (SocketError msg ep).
Proof. intros H msg ep ->. exact H. Qed.

(** A fault of the first fetch of an accessor: the call returns [None],
    whatever the fuel, and the fault is the first line it prints. *)
Lemma first_fault_returns_none (fuel : nat) (self : Socket) (a : Accessor)
  (w : World) (msg : string) :
  fault_of (next_outcome self (endpoint_of self a) w) = Some msg ->
  exists w' extra,
    call fuel self a w = Some (Ret None, w')
    /\ stdout w'
       = (stdout w ++ get_error msg (endpoint_of self a) :: extra)%list.
Proof.
  intros Hm.
  assert (Hone : (forall n t, a <> a_wait_til_gained_xp n t) ->
                 exists w' extra,
                   call fuel self a w = Some (Ret None, w')
                   /\ stdout w'
                      = (stdout w
                         ++ get_error msg (endpoint_of self a) :: extra)%list).
  { intros Hnw.
    destruct (call_shape fuel self a Hnw) as (B & f & k & -> & Hk).
    destruct (one_fetch_run self (endpoint_of self a) k w Hk)
      as (_ & _ & Hfault).
    unfold once. rewrite (Hfault msg Hm). simpl.
    eexists _, []. split; reflexivity. }
  destruct a; try (apply Hone; discriminate).
  simpl in *. unfold wait_til_gained_xp, get_stat_xp, stat_lookup.
  rewrite or_print_none_fetched, (fetched_fault _ _ _ Hm). simpl.
  eexists _, ["Failed to get starting xp."]. split; [reflexivity |].
  simpl. now rewrite <- app_assoc.
Qed.

(** A completed call of an accessor: it has not raised a [SocketError],
    and a request of the call that met a fault made the call return
    [None] with the fault printed first. *)
Lemma run_faults_caught (fuel : nat) (self : Socket) (a : Accessor)
  (w w' : World) (r : Result (option Value)) :
  call fuel self a w = Some (r, w') ->
  faultless r
  /\ forall k msg,
      (List.length (sent w) <= k < List.length (sent w'))%nat ->
      fault_of (net w k (url_of self (endpoint_of self a))) = Some msg ->
      r = Ret None
      /\ exists extra,
          stdout w'
          = (stdout w ++ get_error msg (endpoint_of self a) :: extra)%list.
Proof.
  intros H.
  assert (Hone : (forall n t, a <> a_wait_til_gained_xp n t) ->
    faultless r
    /\ forall k msg,
      (List.length (sent w) <= k < List.length (sent w'))%nat ->
      fault_of (net w k (url_of self (endpoint_of self a))) = Some msg ->
      r = Ret None
      /\ exists extra,
          stdout w'
          = (stdout w ++ get_error msg (endpoint_of self a) :: extra)%list).
  { intros Hnw.
    destruct (call_shape fuel self a Hnw) as (B & f & k & Heq & Hk).
    rewrite Heq in H. unfold once in H. injection H as H.
    destruct (one_fetch_run self (endpoint_of self a) k w Hk)
      as (Hf & Hs & Hfault).
    destruct (or_print_none (do_get self (endpoint_of self a)) k w)
      as [r0 w0] eqn:R.
    assert (w0 = w') as ->
        by (destruct r0; simpl in H; now injection H).
    split.
    - change r with (fst (r, w')). rewrite <- H.
      now apply map_result_faultless.
    - intros j msg Hj Hm. simpl in Hs. rewrite Hs, length_app in Hj.
      simpl in Hj. assert (j = List.length (sent w)) as -> by lia.
      specialize (Hfault msg Hm). injection Hfault as -> ->.
      simpl in H. injection H as <-. split; [reflexivity |].
      now exists []. }
  destruct a; try (apply Hone; discriminate).
  clear Hone. simpl in *.
  unfold wait_til_gained_xp, get_stat_xp, stat_lookup in H.
  rewrite or_print_none_fetched in H.
  set (ep := stats_endpoint self) in *.
  set (name := capitalize (lower (capitalize (lower stat_name)))) in *.
  assert (Hnext : next_outcome self ep w
                  = net w (List.length (sent w)) (url_of self ep))
    by reflexivity.
  destruct (fetched ep (next_outcome self ep w)) as [data | e] eqn:F.
  - assert (Hk : forall k msg,
              (k < S (List.length (sent w)))%nat ->
              (List.length (sent w) <= k)%nat ->
              fault_of (net w k (url_of self ep)) = Some msg -> False).
    { intros k msg Hlt Hle Hm.
      assert (k = List.length (sent w)) as -> by lia.
      rewrite <- Hnext in Hm.
      rewrite (fetched_fault ep _ _ Hm) in F. discriminate. }
    pose proof (faultless_first_stat "xp" name data) as Hfs.
    destruct (first_stat "xp" name data) as [start | e].
    + simpl in H.
      destruct (poll_xp fuel self (capitalize (lower stat_name)) start
                  (clock w (reads w) + wait_time)
                  (add_read (add_request (url_of self ep) w)))
        as [[r0 w0] |] eqn:P; [| discriminate].
      simpl in H. injection H as H.
      apply poll_xp_run in P as (Hf & Hn & Hl & Hfault).
      simpl in Hn, Hl, Hfault. rewrite length_app in Hl, Hfault.
      simpl in Hl, Hfault.
      assert (w0 = w') as ->
          by (destruct r0; simpl in H; now injection H).
      split.
      * change r with (fst (r, w')). rewrite <- H.
        now apply (map_result_faultless VInt (r0, w')).
      * intros k msg Hk' Hm.
        destruct (Nat.eq_dec k (List.length (sent w))) as [-> | Hne];
          [exfalso; apply (Hk (List.length (sent w)) msg);
           lia || assumption |].
        destruct (Hfault k msg) as [-> Hout]; [lia | exact Hm |].
        simpl in H. injection H as <-. split; [reflexivity |].
        exists []. exact Hout.
    + destruct e; simpl in H; injection H as <- <-; simpl;
        (split; [exact I || exact Hfs |]);
        intros k msg Hk' Hm; simpl in Hk'; rewrite length_app in Hk';
        simpl in Hk'; exfalso; apply (Hk k msg); lia || assumption.
  - destruct e; simpl in H; injection H as <- <-; simpl;
      (split; [exact I |]);
      intros k msg Hk' Hm; simpl in Hk'; rewrite length_app in Hk';
      simpl in Hk'; assert (k = List.length (sent w)) as -> by lia;
      rewrite <- Hnext in Hm;
      rewrite (fetched_fault ep _ _ Hm) in F; try discriminate.
    injection F as -> ->. split; [reflexivity |].
    exists ["Failed to get starting xp."]. now rewrite <- app_assoc.
Qed.

(** X19. Every accessor of the catalog turns the [SocketError]s of its
    fetches -- the faults of a 204, of another status than 200, of a
    connection failure -- into [None] and a printed line.  A fault of
    its first fetch makes the call return [None], whatever the fuel; a
    fault of a fetch
    inside the polling loop of [wait_til_gained_xp] makes the loop
    return [None] on the spot; and in every completed call no
    [SocketError] has reached the caller, and any request of the call
    that met a fault made the call return [None] with the fault, which
    names the endpoint, printed. *)
Theorem accessors_catch_faults :
  (forall fuel self a w msg,
      fault_of (next_outcome self (endpoint_of self a) w) = Some msg ->
      exists w' extra,
        call fuel self a w = Some (Ret None, w')
        /\ stdout w'
           = (stdout w ++ get_error msg (endpoint_of self a) :: extra)%list)
  /\ (forall fuel self name starting_xp stop_time v msg,
      clock v (reads v) < stop_time ->
      fault_of (next_outcome self (stats_endpoint self) v) = Some msg ->
      poll_xp (S fuel) self name starting_xp stop_time v
      = Some (Ret None,
              add_line (get_error msg (stats_endpoint self))
                (add_request (url_of self (stats_endpoint self))
                   (add_read v))))
  /\ (forall fuel self a w r w',
      call fuel self a w = Some (r, w') ->
      (forall msg ep, r <> Raise (SocketError msg ep))
      /\ forall k msg,
          (List.length (sent w) <= k < List.length (sent w'))%nat ->
          fault_of (net w k (url_of self (endpoint_of self a))) = Some msg ->
          r = Ret None
          /\ exists extra,
              stdout w'
              = (stdout w
                 ++ get_error msg (endpoint_of self a) :: extra)%list).
Proof.
  split; [| split].
  - intros. now apply first_fault_returns_none.
  - intros. now apply poll_xp_fault.
  - intros fuel self a w r w' H.
    destruct (run_faults_caught fuel self a w w' r H) as [Hf Hk].
    split; [now apply faultless_neq | exact Hk].
Qed.

(** A service that is not ready when the hitpoints are asked for; a
    service that answers the starting xp and one poll and then fails
    with status 500 at the second poll of [wait_til_gained_xp]. *)
Lemma accessors_catch_faults_witness :
  let not_ready := always (Responds (mkResponse 204 None)) 0 in
  let failing := scripted [ok (xp_table 100); ok (xp_table 100);
                           Responds (mkResponse 500 None)]
                   (ok (xp_table 100)) 0 in
  (exists w' extra,
      call 0 init a_get_hitpoints not_ready = Some (Ret None, w')
      /\ stdout w'
         = "Endpoint not available, make sure you are fully logged in, status code: 204 endpoint: 'events'"
           :: extra)
  /\ (exists w',
      poll_xp 1 init "Attack" 100 10 not_ready = Some (Ret None, w')
      /\ stdout w'
         = ["Endpoint not available, make sure you are fully logged in, status code: 204 endpoint: 'stats'"])
  /\ (exists r w',
      call 5 init (a_wait_til_gained_xp "attack" 10) failing = Some (r, w')
      /\ List.length (sent w') = 3%nat
      /\ r = Ret None
      /\ exists extra,
          stdout w'
          = "Unable to reach socket, status code: 500 endpoint: 'stats'"
            :: extra).
Proof.
  intros not_ready failing.
  destruct accessors_catch_faults as (First & Loop & Run).
  split; [| split].
  - apply (First 0%nat init a_get_hitpoints not_ready
             "Endpoint not available, make sure you are fully logged in, status code: 204").
    reflexivity.
  - eexists. split.
    + apply (Loop 0%nat init "Attack" 100 10 not_ready
               "Endpoint not available, make sure you are fully logged in, status code: 204").
      * reflexivity.
      * reflexivity.
    + reflexivity.
  - eexists _, _. split; [vm_compute; reflexivity |].
    split; [reflexivity |].
    refine (proj2 (Run 5%nat init (a_wait_til_gained_xp "attack" 10)
                     failing _ _ _) 2%nat
              "Unable to reach socket, status code: 500" _ _).
    + vm_compute. reflexivity.
    + simpl. lia.
    + reflexivity.
Defined.

(** ** Waiting for xp *)

(** C2, as the code has it.  Once the starting xp is fetched,
    [wait_til_gained_xp] sets the deadline to the time it reads plus
    [wait_time] and enters the loop.  Each turn of the loop reads the
    clock first: at or past the deadline it returns [None] without
    polling; before the deadline it polls the stats endpoint, returns
    [None] on a fault, returns the polled xp when it exceeds the
    starting xp, and takes another turn otherwise.  So with a
    [wait_time] of 0, on a clock that does not run backwards, nothing
    is polled. *)
Theorem wait_til_gained_xp_tests_deadline_first (fuel : nat) (self : Socket)
  (stat_name : string) (wait_time : Z) (w w1 : World) (starting_xp : Z) :
  get_stat_xp self (capitalize (lower stat_name)) w
  = (Ret (Some starting_xp), w1) ->
  let name := capitalize (lower stat_name) in
  let stop_time := clock w1 (reads w1) + wait_time in
  let ep := stats_endpoint self in
  let polled v := add_request (url_of self ep) (add_read v) in
  let loop n := poll_xp n self name starting_xp stop_time in
  wait_til_gained_xp fuel self stat_name wait_time w = loop fuel (add_read w1)
  /\ (forall v,
      stop_time <= clock v (reads v) ->
      loop (S fuel) v = Some (Ret None, add_read v))
  /\ (forall v msg,
      clock v (reads v) < stop_time ->
      fault_of (next_outcome self ep v) = Some msg ->
      loop (S fuel) v
      = Some (Ret None, add_line (get_error msg ep) (polled v)))
  /\ (forall v data xp,
      clock v (reads v) < stop_time ->
      next_outcome self ep v = ok data ->
      first_stat "xp" name data = Ret xp ->
      (starting_xp < xp ->
       loop (S fuel) v = Some (Ret (Some xp), polled v))
      /\ (xp <= starting_xp -> loop (S fuel) v = loop fuel (polled v)))
  /\ (wait_time <= 0 ->
      clock w1 (reads w1) <= clock w1 (S (reads w1)) ->
      wait_til_gained_xp (S fuel) self stat_name wait_time w
      = Some (Ret None, add_read (add_read w1))).
Proof.
  intros Hstart name stop_time ep polled loop.
  split; [| split; [| split; [| split]]].
  - exact (wait_enters_loop fuel self stat_name wait_time w w1 starting_xp
             Hstart).
  - intros v Hv. now apply poll_xp_timed_out.
  - intros v msg Hv Hm. now apply poll_xp_fault.
  - intros v data xp Hv Hd Hx. unfold loop.
    rewrite (poll_xp_polled self name starting_xp stop_time fuel v data xp
               Hv Hd Hx).
    split; intros Hxp.
    + destruct (Z.gtb_spec xp starting_xp); [reflexivity | lia].
    + destruct (Z.gtb_spec xp starting_xp); [lia | reflexivity].
  - intros Hwait Hclock.
    rewrite (wait_enters_loop (S fuel) self stat_name wait_time w w1
               starting_xp Hstart).
    apply poll_xp_timed_out. simpl. lia.
Qed.

(** The scenario of the specification: the starting xp is 100, two
    polls find 100, the third finds 150 before the deadline. *)
Example wait_gains_150 :
  let w := scripted [ok (xp_table 100); ok (xp_table 100);
                     ok (xp_table 100); ok (xp_table 150)]
             (ok (xp_table 150)) 0 in
  option_map fst (wait_til_gained_xp 10 init "attack" 10 w)
  = Some (Ret (Some 150)).
Proof. reflexivity. Qed.

(** No poll before the deadline finds more than 100. *)
Example wait_times_out :
  let w := always (ok (xp_table 100)) 0 in
  option_map fst (wait_til_gained_xp 10 init "attack" 3 w)
  = Some (Ret None)
  /\ option_map (fun x => List.length (sent (snd x)))
       (wait_til_gained_xp 10 init "attack" 3 w) = Some 3%nat.
Proof. split; reflexivity. Qed.

(** The loop on a service whose Attack xp stands at 100 and a clock
    that reads 0, 1, 2, ...: entered with a deadline of 0 it returns at
    once; with a deadline of 5 and a starting xp of 40 it returns the
    100 it polls; and a call with a [wait_time] of 0 sends the request
    for the starting xp and no other. *)
Lemma wait_til_gained_xp_tests_deadline_first_witness :
  let w := always (ok (xp_table 100)) 0 in
  let url := "http://localhost:8081/stats" in
  wait_til_gained_xp 1 init "attack" 0 w
  = Some (Ret None, add_read (add_read (add_request url w)))
  /\ poll_xp 1 init "Attack" 100 0 w = Some (Ret None, add_read w)
  /\ wait_til_gained_xp 0 init "attack" 0 w
     = poll_xp 0 init "Attack" 100 0 (add_read (add_request url w)).
Proof.
  intros w url.
  pose proof (wait_til_gained_xp_tests_deadline_first 0 init "attack" 0 w
                (add_request url w) 100 eq_refl)
    as (Henter & Hout & _ & _ & Hzero).
  split; [| split].
  - apply Hzero; simpl; lia.
  - apply (Hout w). simpl. lia.
  - exact Henter.
Defined.

(** C2 as it was claimed fails for a [wait_time] of 0: the starting xp
    is fetched, it is 100, and the call returns [None] with that one
    request sent and nothing printed -- the loop has polled nothing. *)
Lemma wait_zero_polls_nothing :
  let w := always (ok (xp_table 100)) 0 in
  fst (get_stat_xp init "attack" w) = Ret (Some 100)
  /\ exists w',
      wait_til_gained_xp 5 init "attack" 0 w = Some (Ret None, w')
      /\ sent w' = ["http://localhost:8081/stats"]
      /\ stdout w' = []
      /\ reads w' = 2%nat.
Proof.
  split; [reflexivity |].
  eexists. split; [reflexivity |]. repeat split.
Qed.

(** * Further properties of the accessors *)

(** ** One request per call *)

Lemma mute_ret {A} (a : A) : mute (ret a).
Proof. intros w. reflexivity. Qed.

Lemma mute_lift {A} (r : Result A) : mute (lift r).
Proof. intros w. reflexivity. Qed.

Lemma mute_raise {A} (e : Exc) : mute (@raise A e).
Proof. intros w. reflexivity. Qed.

Lemma mute_bind {A B} (m : M A) (k : A -> M B) :
  mute m -> (forall a, mute (k a)) -> mute (bind m k).
Proof.
  intros Hm Hk w. unfold bind. specialize (Hm w).
  destruct (m w) as [[a | e] w1]; simpl in *; subst; [apply Hk | reflexivity].
Qed.

Lemma mute_tame {B} (m : M (option B)) : mute m -> tame m.
Proof. intros H w. left. apply H. Qed.

Ltac mute_body :=
  repeat first
    [ apply mute_bind; [| intro]
    | apply mute_ret
    | apply mute_lift
    | apply mute_raise ].

Lemma tame_stat_body (field name : string) (data : JSON) :
  tame (match first_stat field name data with
        | Ret value => ret (Some value)
        | Raise StopIteration =>
            print ("Invalid stat name: " ++ name) ;;; ret None
        | Raise e => raise e
        end).
Proof.
  intros w. destruct (first_stat field name data) as [v | e];
    [now left |].
  destruct e; try (now left).
  right. split; [reflexivity | eexists; reflexivity].
Qed.

Lemma mute_hitpoints_body (data : JSON) :
  mute (hitpoints_data <- lift (getitem data "health") ;;
        parts <- lift (str_split hitpoints_data "/") ;;
        match parts with
        | [cur_hp; max_hp] =>
            c <- lift (int_of_str cur_hp) ;;
            m <- lift (int_of_str max_hp) ;;
            ret (Some (c, m))
        | _ => raise ValueError
        end).
Proof.
  apply mute_bind; [mute_body | intro v].
  apply mute_bind; [mute_body | intro parts].
  destruct parts as [| a [| b [| c l]]]; mute_body.
Qed.

Lemma call_shape_tame (fuel : nat) (self : Socket) (a : Accessor) :
  (forall n t, a <> a_wait_til_gained_xp n t) ->
  exists (B : Type) (f : B -> Value) (k : JSON -> M (option B)),
    call fuel self a
    = once f (or_print_none (do_get self (endpoint_of self a)) k)
    /\ forall data, tame (k data).
Proof.
  intros Hw.
  destruct a;
    try (exfalso; eapply Hw; reflexivity);
    simpl;
    try (eexists _, _, _; split; [reflexivity |];
         intro data; simpl;
         first [ apply tame_stat_body
               | apply mute_tame; apply mute_hitpoints_body
               | apply mute_tame; mute_body ]).
Qed.

(** X1. A call of an accessor other than [wait_til_gained_xp] sends
    one request, to the URL of its endpoint, and does not read the
    clock, whatever the service answers and whether the call returns
    or raises; it prints at most one line, and that only when it
    returns [None]. *)
Theorem one_request_per_call (fuel : nat) (self : Socket) (a : Accessor)
  (w : World) :
  (forall n t, a <> a_wait_til_gained_xp n t) ->
  exists r w',
    call fuel self a w = Some (r, w')
    /\ let w1 := add_request (url_of self (endpoint_of self a)) w in
       w' = w1 \/ (r = Ret None /\ exists line, w' = add_line line w1).
Proof.
  intros Hnw.
  destruct (call_shape_tame fuel self a Hnw) as (B & f & k & -> & Hk).
  unfold once. rewrite or_print_none_fetched.
  destruct (fetched (endpoint_of self a)
              (next_outcome self (endpoint_of self a) w)) as [data | e].
  - specialize (Hk data (add_request (url_of self (endpoint_of self a)) w)).
    destruct (k data (add_request (url_of self (endpoint_of self a)) w))
      as [[v | e] w0]; simpl in *;
      eexists _, _; (split; [reflexivity |]);
      destruct Hk as [-> | [Hr [line ->]]]; auto.
    + right. injection Hr as ->. split; [reflexivity | now exists line].
    + discriminate.
  - destruct e; simpl; eexists _, _; (split; [reflexivity |]); auto.
    right. split; [reflexivity | eexists; reflexivity].
Qed.

Lemma one_request_per_call_witness :
  let w := always (ok (xp_table 100)) 0 in
  exists r w',
    call 0 init (a_get_stat_level "magic") w = Some (r, w')
    /\ let w1 := add_request "http://localhost:8081/stats" w in
       w' = w1 \/ (r = Ret None /\ exists line, w' = add_line line w1).
Proof.
  intros w.
  apply (one_request_per_call 0 init (a_get_stat_level "magic") w).
  discriminate.
Defined.

(** ** Exceptions that are not faults *)

(** X2. An exception of [requests.get] outside the [ConnectionError]
    family, and the decoding error of a 200 response whose body is not
    JSON, leave every accessor as they are: the call raises them after
    its first request, with nothing printed. *)
Theorem other_exceptions_pass (fuel : nat) (self : Socket) (a : Accessor)
  (w : World) :
  let w1 := add_request (url_of self (endpoint_of self a)) w in
  (forall x,
      is_ConnectionError x = false ->
      next_outcome self (endpoint_of self a) w = Fails x ->
      call fuel self a w = Some (Raise (RequestException x), w1))
  /\ (next_outcome self (endpoint_of self a) w
      = Responds (mkResponse 200 None) ->
      call fuel self a w = Some (Raise JSONDecodeError, w1)).
Proof.
  intros w1.
  assert (H : forall e,
             faultless (@Raise JSON e) ->
             fetched (endpoint_of self a)
               (next_outcome self (endpoint_of self a) w) = Raise e ->
             call fuel self a w = Some (Raise e, w1)).
  { intros e He F.
    assert (Hone : (forall n t, a <> a_wait_til_gained_xp n t) ->
                   call fuel self a w = Some (Raise e, w1)).
    { intros Hnw.
      destruct (call_shape fuel self a Hnw) as (B & f & k & -> & _).
      unfold once. rewrite or_print_none_fetched, F.
      destruct e; try reflexivity. contradiction. }
    destruct a; try (apply Hone; discriminate).
    simpl in *. unfold wait_til_gained_xp, get_stat_xp, stat_lookup.
    rewrite or_print_none_fetched, F.
    destruct e; try reflexivity. contradiction. }
  split.
  - intros x Hx Hnet. apply H; [exact I |].
    rewrite Hnet. unfold fetched, fault_of. now rewrite Hx.
  - intros Hnet. apply H; [exact I |]. now rewrite Hnet.
Qed.

Lemma other_exceptions_pass_witness :
  call 0 init a_get_player_equipment (always (Fails ReadTimeout) 0)
  = Some (Raise (RequestException ReadTimeout),
          add_request "http://localhost:8081/equip"
            (always (Fails ReadTimeout) 0))
  /\ call 3 init (a_wait_til_gained_xp "attack" 5)
       (always (Responds (mkResponse 200 None)) 0)
     = Some (Raise JSONDecodeError,
             add_request "http://localhost:8081/stats"
               (always (Responds (mkResponse 200 None)) 0)).
Proof.
  split.
  - apply (other_exceptions_pass 0 init a_get_player_equipment
             (always (Fails ReadTimeout) 0)); reflexivity.
  - apply (other_exceptions_pass 3 init (a_wait_til_gained_xp "attack" 5)
             (always (Responds (mkResponse 200 None)) 0)).
    reflexivity.
Defined.

(** ** Decimal strings *)

Lemma uval_pos (d : Decimal.uint) : forall acc : positive,
  uval d (Z.pos acc) = Z.pos (Pos.of_uint_acc d acc).
Proof.
  induction d; intros acc; cbn [uval Pos.of_uint_acc]; try reflexivity;
    match goal with
    | |- uval _ ?z = Z.pos (Pos.of_uint_acc _ ?p) =>
        replace z with (Z.pos p) by lia; apply IHd
    end.
Qed.

Lemma uval_0 (d : Decimal.uint) : uval d 0 = Z.of_N (Pos.of_uint d).
Proof.
  induction d; cbn [uval Pos.of_uint Z.of_N]; try reflexivity;
    try exact IHd;
    match goal with
    | |- uval _ ?z = Z.pos (Pos.of_uint_acc _ ?p) => apply (uval_pos d p)
    end.
Qed.

Lemma digits_decimal (d : Decimal.uint) : forall acc,
  digits acc true (chars (NilEmpty.string_of_uint d)) = Some (uval d acc).
Proof.
  induction d; intros acc; simpl; try reflexivity; apply IHd.
Qed.

Lemma digits_decimal_first (d : Decimal.uint) (acc : Z) :
  d <> Decimal.Nil ->
  digits acc false (chars (NilEmpty.string_of_uint d)) = Some (uval d acc).
Proof.
  destruct d; intros H; try contradiction; simpl; apply digits_decimal.
Qed.

Lemma decimal_chars (d : Decimal.uint) :
  Forall (fun c => is_decimal_char c = true)
         (chars (NilEmpty.string_of_uint d)).
Proof. induction d; simpl; constructor; trivial. Qed.

Lemma str_of_int_chars (n : Z) :
  Forall (fun c => is_decimal_char c = true) (chars (str_of_int n)).
Proof.
  unfold str_of_int.
  destruct n as [| p | p]; simpl.
  - repeat constructor.
  - destruct (Pos.to_uint p) eqn:E; try apply decimal_chars.
    repeat constructor.
  - constructor; [reflexivity |].
    destruct (Pos.to_uint p) eqn:E; try apply decimal_chars.
    repeat constructor.
Qed.

Lemma decimal_char_not_space (c : ascii) :
  is_decimal_char c = true -> is_space c = false.
Proof.
  destruct c as [[|] [|] [|] [|] [|] [|] [|] [|]];
    vm_compute; congruence.
Qed.

Lemma decimal_char_not_slash (c : ascii) :
  is_decimal_char c = true -> Ascii.eqb c "/" = false.
Proof.
  destruct c as [[|] [|] [|] [|] [|] [|] [|] [|]];
    vm_compute; congruence.
Qed.

Lemma lstrip_id (l : list ascii) :
  Forall (fun c => is_space c = false) l -> lstrip l = l.
Proof. destruct 1 as [| c l H _]; simpl; [reflexivity | now rewrite H]. Qed.

Lemma strip_id (l : list ascii) :
  Forall (fun c => is_space c = false) l -> strip l = l.
Proof.
  intros H. unfold strip. rewrite (lstrip_id l H).
  rewrite lstrip_id; [apply rev_involutive |].
  apply Forall_rev. exact H.
Qed.

Lemma uval_to_uint (p : positive) : uval (Pos.to_uint p) 0 = Z.pos p.
Proof. now rewrite uval_0, Unsigned.of_to. Qed.

Lemma decimal_char_ascii (c : ascii) :
  is_decimal_char c = true -> (code c <? 128)%N = true.
Proof.
  destruct c as [[|] [|] [|] [|] [|] [|] [|] [|]];
    vm_compute; congruence.
Qed.

Lemma str_of_int_ascii (n : Z) : is_ascii_text (chars (str_of_int n)) = true.
Proof.
  unfold is_ascii_text. apply forallb_forall. intros c Hc.
  apply decimal_char_ascii.
  pose proof (str_of_int_chars n) as H. rewrite Forall_forall in H.
  now apply H.
Qed.

(** [int(str(n)) == n]. *)
Lemma int_of_str_str_of_int (n : Z) : int_of_str (str_of_int n) = Ret n.
Proof.
  unfold int_of_str. rewrite str_of_int_ascii, strip_id.
  2:{ eapply Forall_impl; [| apply str_of_int_chars].
      intros c. apply decimal_char_not_space. }
  unfold str_of_int. destruct n as [| p | p]; [reflexivity | |];
    pose proof (Unsigned.to_uint_nonnil p) as Hnil;
    pose proof (uval_to_uint p) as Hval;
    cbn [Z.to_int NilZero.string_of_int];
    destruct (Pos.to_uint p) eqn:E; try contradiction;
    cbn [NilZero.string_of_uint NilEmpty.string_of_uint chars
         list_ascii_of_string];
    cbn [uval] in Hval;
    cbn [digits digit_of]; simpl;
    rewrite digits_decimal; simpl in Hval; simpl; now rewrite Hval.
Qed.

(** ** Hitpoints *)

Lemma chars_app (s t : string) : chars (s ++ t) = (chars s ++ chars t)%list.
Proof. induction s as [| c s IH]; simpl; [reflexivity | now rewrite IH]. Qed.

Lemma str_of_chars (s : string) : str_of (chars s) = s.
Proof. apply string_of_list_ascii_of_string. Qed.

Lemma split_on_none (sep : ascii) (l : list ascii) : forall cur,
  Forall (fun c => Ascii.eqb c sep = false) l ->
  split_on sep cur l = [str_of (rev cur ++ l)].
Proof.
  induction l as [| c l IH]; intros cur H; simpl.
  - now rewrite app_nil_r.
  - inversion H as [| ? ? Hc Hl]; subst. rewrite Hc, IH by assumption.
    simpl. now rewrite <- app_assoc.
Qed.

Lemma split_on_one (sep : ascii) (a b : list ascii) : forall cur,
  Forall (fun c => Ascii.eqb c sep = false) a ->
  Forall (fun c => Ascii.eqb c sep = false) b ->
  split_on sep cur (a ++ sep :: b) = [str_of (rev cur ++ a); str_of b].
Proof.
  induction a as [| c a IH]; intros cur Ha Hb; simpl.
  - rewrite Ascii.eqb_refl, app_nil_r. f_equal.
    now rewrite (split_on_none sep b [] Hb).
  - inversion Ha as [| ? ? Hc Hl]; subst. rewrite Hc, IH by assumption.
    simpl. now rewrite <- app_assoc.
Qed.

(** [s.split(sep)] has one part more than [s] has separators. *)
Lemma split_on_length (sep : ascii) (l : list ascii) : forall cur,
  List.length (split_on sep cur l)
  = S (List.length (filter (fun c => Ascii.eqb c sep) l)).
Proof.
  induction l as [| c l IH]; intros cur; simpl; [reflexivity |].
  destruct (Ascii.eqb c sep); simpl; now rewrite IH.
Qed.

(** X3. On a snapshot whose 'health' reads "<c>/<m>", two integers in
    decimal, [get_hitpoints] returns the pair (c, m). *)
Theorem get_hitpoints_decimal (self : Socket) (w : World)
  (d : list (string * JSON)) (c m : Z) :
  next_outcome self (events_endpoint self) w = ok (JDict d) ->
  assoc "health" d = Some (JStr (str_of_int c ++ "/" ++ str_of_int m)) ->
  get_hitpoints self w
  = (Ret (Some (c, m)), add_request (url_of self (events_endpoint self)) w).
Proof.
  intros Hnet Hh. unfold get_hitpoints.
  rewrite or_print_none_fetched, Hnet, fetched_ok.
  unfold bind, lift, ret; simpl. rewrite Hh. simpl.
  unfold split. rewrite chars_app. simpl.
  rewrite split_on_one.
  - simpl. rewrite !str_of_chars, !int_of_str_str_of_int. reflexivity.
  - eapply Forall_impl; [| apply str_of_int_chars].
    intros a. apply decimal_char_not_slash.
  - eapply Forall_impl; [| apply str_of_int_chars].
    intros a. apply decimal_char_not_slash.
Qed.

Lemma get_hitpoints_decimal_witness :
  let w := always (ok (JDict [("run energy", JInt 100);
                              ("health", JStr "7/99")])) 0 in
  get_hitpoints init w
  = (Ret (Some (7, 99)), add_request "http://localhost:8081/events" w).
Proof.
  intros w.
  apply (get_hitpoints_decimal init w
           [("run energy", JInt 100); ("health", JStr "7/99")] 7 99);
    reflexivity.
Defined.

(** X4. On a snapshot that is a dict, [get_hitpoints] raises to its
    caller when the 'health' is not of the form it expects: the
    [KeyError] of a missing 'health', the [AttributeError] of a
    'health' that is not a string, the [ValueError] of a string with no
    slash or with more than one. *)
Theorem get_hitpoints_malformed (self : Socket) (w : World)
  (d : list (string * JSON)) :
  next_outcome self (events_endpoint self) w = ok (JDict d) ->
  let w1 := add_request (url_of self (events_endpoint self)) w in
  (assoc "health" d = None ->
   get_hitpoints self w = (Raise (KeyError "health"), w1))
  /\ (forall v,
      assoc "health" d = Some v ->
      (forall s, v <> JStr s) ->
      get_hitpoints self w = (Raise AttributeError, w1))
  /\ (forall s,
      assoc "health" d = Some (JStr s) ->
      List.length (filter (fun c => Ascii.eqb c "/") (chars s)) <> 1%nat ->
      get_hitpoints self w = (Raise ValueError, w1)).
Proof.
  intros Hnet w1. unfold get_hitpoints.
  rewrite or_print_none_fetched, Hnet, fetched_ok. fold w1.
  unfold bind, lift, ret, raise; simpl.
  split; [| split].
  - intros ->. reflexivity.
  - intros v -> Hv. destruct v; try reflexivity.
    exfalso. eapply Hv. reflexivity.
  - intros s -> Hn. simpl.
    pose proof (split_on_length "/" (chars s) []) as Hlen.
    fold (split s "/") in Hlen.
    destruct (split s "/") as [| a [| b [| c l]]]; try reflexivity.
    simpl in Hlen. exfalso. apply Hn. lia.
Qed.

Lemma get_hitpoints_malformed_witness :
  let snapshot h := always (ok (JDict [("health", h)])) 0 in
  fst (get_hitpoints init (always (ok (JDict [])) 0))
  = Raise (KeyError "health")
  /\ fst (get_hitpoints init (snapshot (JInt 21))) = Raise AttributeError
  /\ fst (get_hitpoints init (snapshot (JStr "21"))) = Raise ValueError
  /\ fst (get_hitpoints init (snapshot (JStr "21/21/21"))) = Raise ValueError.
Proof.
  intros snapshot.
  split; [| split; [| split]].
  - destruct (get_hitpoints_malformed init (always (ok (JDict [])) 0) []
                eq_refl) as (H & _).
    now rewrite H.
  - destruct (get_hitpoints_malformed init (snapshot (JInt 21))
                [("health", JInt 21)] eq_refl) as (_ & H & _).
    rewrite (H (JInt 21)); [reflexivity | reflexivity | discriminate].
  - destruct (get_hitpoints_malformed init (snapshot (JStr "21"))
                [("health", JStr "21")] eq_refl) as (_ & _ & H).
    rewrite (H "21"); [reflexivity | reflexivity | vm_compute; lia].
  - destruct (get_hitpoints_malformed init (snapshot (JStr "21/21/21"))
                [("health", JStr "21/21/21")] eq_refl) as (_ & _ & H).
    rewrite (H "21/21/21"); [reflexivity | reflexivity | vm_compute; lia].
Defined.

(** ** The integer fields of the events snapshot *)

Lemma events_int_snapshot (self : Socket) (key : string) (w : World)
  (data : JSON) :
  next_outcome self (events_endpoint self) w = ok data ->
  events_int self key w
  = (match rbind (getitem data key) int with
     | Ret v => Ret (Some v)
     | Raise e => Raise e
     end, add_request (url_of self (events_endpoint self)) w).
Proof.
  intros Hnet. unfold events_int.
  rewrite or_print_none_fetched, Hnet, fetched_ok.
  unfold bind, lift, ret.
  destruct (rbind (getitem data key) int); reflexivity.
Qed.

Lemma call_events_int (fuel : nat) (self : Socket) (a : Accessor)
  (key : string) :
  events_key a = Some key ->
  call fuel self a = once VInt (events_int self key).
Proof. destruct a; simpl; intros [= <-]; reflexivity. Qed.

(** X5. The accessors that return one integer of the events snapshot
    (run energy, animation, animation id, game tick, interaction code,
    npc name, npc health) return the value under their key when it is
    an integer or the decimal notation of one; they raise the
    [KeyError] of the key when the snapshot lacks it and a [TypeError]
    when the value is null. *)
Theorem events_int_of_snapshot (fuel : nat) (self : Socket) (a : Accessor)
  (key : string) (w : World) (d : list (string * JSON)) :
  events_key a = Some key ->
  next_outcome self (events_endpoint self) w = ok (JDict d) ->
  let w1 := add_request (url_of self (events_endpoint self)) w in
  (forall n,
      assoc key d = Some (JInt n)
      \/ assoc key d = Some (JStr (str_of_int n)) ->
      call fuel self a w = Some (Ret (Some (VInt n)), w1))
  /\ (assoc key d = None ->
      call fuel self a w = Some (Raise (KeyError key), w1))
  /\ (assoc key d = Some JNull ->
      call fuel self a w = Some (Raise TypeError, w1)).
Proof.
  intros Hk Hnet w1. rewrite (call_events_int fuel self a key Hk).
  unfold once. rewrite (events_int_snapshot self key w _ Hnet). fold w1.
  simpl. split; [| split].
  - intros n [-> | ->]; simpl; [reflexivity |].
    now rewrite int_of_str_str_of_int.
  - intros ->. reflexivity.
  - intros ->. reflexivity.
Qed.

Lemma events_int_of_snapshot_witness :
  let d := [("animation", JInt 808); ("game tick", JStr "4711");
            ("npc name", JNull)] in
  let w := always (ok (JDict d)) 0 in
  let w1 := add_request "http://localhost:8081/events" w in
  call 0 init a_get_animation w = Some (Ret (Some (VInt 808)), w1)
  /\ call 0 init a_get_game_tick w = Some (Ret (Some (VInt 4711)), w1)
  /\ call 0 init a_run_energy w = Some (Raise (KeyError "run energy"), w1)
  /\ call 0 init a_get_npc_name w = Some (Raise TypeError, w1).
Proof.
  intros d w w1.
  split; [| split; [| split]].
  - apply (events_int_of_snapshot 0 init a_get_animation "animation" w d
             eq_refl eq_refl).
    left. reflexivity.
  - apply (events_int_of_snapshot 0 init a_get_game_tick "game tick" w d
             eq_refl eq_refl).
    right. reflexivity.
  - apply (events_int_of_snapshot 0 init a_run_energy "run energy" w d
             eq_refl eq_refl).
    reflexivity.
  - apply (events_int_of_snapshot 0 init a_get_npc_name "npc name" w d
             eq_refl eq_refl).
    reflexivity.
Defined.

(** X6. On a snapshot whose 'animation pose' is an integer,
    [get_is_player_idle] says whether [get_animation_id] returns 808 or
    813.  On a pose sent as text the two part ways: the id is the
    number the text denotes, and the player is never idle. *)
Theorem idle_and_animation_id (self : Socket) (w : World)
  (d : list (string * JSON)) (pose : Z) :
  next_outcome self (events_endpoint self) w = ok (JDict d) ->
  (assoc "animation pose" d = Some (JInt pose) ->
   fst (get_animation_id self w) = Ret (Some pose)
   /\ exists idle,
       fst (get_is_player_idle self w) = Ret (Some idle)
       /\ (idle = true <-> pose = 808 \/ pose = 813))
  /\ (assoc "animation pose" d = Some (JStr (str_of_int pose)) ->
      fst (get_animation_id self w) = Ret (Some pose)
      /\ fst (get_is_player_idle self w) = Ret (Some false)).
Proof.
  intros Hnet. unfold get_animation_id, get_is_player_idle.
  rewrite (events_int_snapshot self _ w _ Hnet).
  rewrite or_print_none_fetched, Hnet, fetched_ok.
  unfold bind, lift, ret; simpl.
  split; intros ->; simpl.
  - split; [reflexivity |].
    exists ((pose =? 808) || (pose =? 813))%bool. split; [reflexivity |].
    rewrite orb_true_iff, !Z.eqb_eq. tauto.
  - rewrite int_of_str_str_of_int. split; reflexivity.
Qed.

Lemma idle_and_animation_id_witness :
  let as_int := always (ok (JDict [("animation pose", JInt 813)])) 0 in
  let as_text := always (ok (JDict [("animation pose", JStr "813")])) 0 in
  (fst (get_animation_id init as_int) = Ret (Some 813)
   /\ exists idle,
       fst (get_is_player_idle init as_int) = Ret (Some idle)
       /\ (idle = true <-> 813 = 808 \/ 813 = 813))
  /\ (fst (get_animation_id init as_text) = Ret (Some 813)
      /\ fst (get_is_player_idle init as_text) = Ret (Some false)).
Proof.
  intros as_int as_text. split.
  - apply (idle_and_animation_id init as_int
             [("animation pose", JInt 813)] 813 eq_refl).
    reflexivity.
  - apply (idle_and_animation_id init as_text
             [("animation pose", JStr "813")] 813 eq_refl).
    reflexivity.
Defined.

(** ** Stat lookups: the first record of the name *)

Lemma getitem_field (field : string) (r v : JSON) :
  field_of field r = Some v -> getitem r field = Ret v.
Proof. destruct r; simpl; try discriminate. now intros ->. Qed.

Lemma next_stat_first (field name : string) (before after : list JSON)
  (r : JSON) :
  Forall (other_stat name) before ->
  stat_is name r = true ->
  next_stat field name (before ++ r :: after)
  = rbind (getitem r field) int.
Proof.
  intros Hb Hr. induction Hb as [| x l [Hf Hn] _ IH]; simpl.
  - unfold stat_is in Hr.
    destruct (stat_field r) as [v |] eqn:E; [| discriminate].
    now rewrite (getitem_stat _ _ E), Hr.
  - unfold stat_is in Hn.
    destruct (stat_field x) as [v |] eqn:E; [| contradiction].
    now rewrite (getitem_stat _ _ E), Hn.
Qed.

(** X7. A stat lookup returns the field of the first record of the
    name that follows the head of the table: records of other stats
    ahead of it are passed over, and what comes after it -- a second
    record of the name, an entry that is no record -- is not looked
    at. *)
Theorem stat_lookup_first_match (self : Socket) (stat_name : string)
  (w : World) (head r : JSON) (before after : list JSON)
  (field : string) (lookup : Socket -> string -> M (option Z)) (n : Z) :
  In (field, lookup) [("level", get_stat_level); ("xp", get_stat_xp);
                      ("xp gained", get_stat_xp_gained)] ->
  next_outcome self (stats_endpoint self) w
  = ok (JList (head :: before ++ r :: after)) ->
  Forall (other_stat (capitalize (lower stat_name))) before ->
  stat_is (capitalize (lower stat_name)) r = true ->
  field_of field r = Some (JInt n) ->
  lookup self stat_name w
  = (Ret (Some n), add_request (url_of self (stats_endpoint self)) w).
Proof.
  intros Hin Hnet Hb Hr Hf.
  assert (H : stat_lookup field self stat_name w
              = (Ret (Some n),
                 add_request (url_of self (stats_endpoint self)) w)).
  { rewrite (stat_lookup_table _ _ _ _ _ Hnet).
    unfold first_stat; simpl.
    rewrite (next_stat_first _ _ _ _ _ Hb Hr), (getitem_field _ _ _ Hf).
    reflexivity. }
  simpl in Hin.
  destruct Hin as [[= <- <-] | [[= <- <-] | [[= <- <-] | []]]]; exact H.
Qed.

Lemma stat_lookup_first_match_witness :
  let table := [stat_record "Overall" 41 1254 0;
                stat_record "Defence" 1 0 0;
                stat_record "Attack" 40 37224 120;
                JNull;
                stat_record "Attack" 99 13034431 5] in
  let w := always (ok (JList table)) 0 in
  get_stat_xp_gained init "ATTACK" w
  = (Ret (Some 120), add_request "http://localhost:8081/stats" w).
Proof.
  intros table w.
  apply (stat_lookup_first_match init "ATTACK" w
           (stat_record "Overall" 41 1254 0)
           (stat_record "Attack" 40 37224 120)
           [stat_record "Defence" 1 0 0]
           [JNull; stat_record "Attack" 99 13034431 5]
           "xp gained" get_stat_xp_gained 120).
  - simpl. right. right. left. reflexivity.
  - reflexivity.
  - repeat constructor. discriminate.
  - reflexivity.
  - reflexivity.
Defined.

(** X8. Normalizing a stat name in ASCII a second time changes
    nothing, so each lookup, and the wait, which normalizes the name
    and has [get_stat_xp] normalize it again, gives on the normalized
    name what it gives on the name. *)
Theorem normalized_ascii_name_is_fixed (self : Socket) (stat_name : string)
  (w : World) :
  is_ascii stat_name ->
  let name := capitalize (lower stat_name) in
  capitalize (lower name) = name
  /\ get_stat_level self name w = get_stat_level self stat_name w
  /\ get_stat_xp self name w = get_stat_xp self stat_name w
  /\ get_stat_xp_gained self name w = get_stat_xp_gained self stat_name w
  /\ forall fuel wait_time,
      wait_til_gained_xp fuel self name wait_time w
      = wait_til_gained_xp fuel self stat_name wait_time w.
Proof.
  intros H name. subst name.
  pose proof (normalize_ascii_idem stat_name H) as E.
  unfold get_stat_level, get_stat_xp, get_stat_xp_gained,
    wait_til_gained_xp, stat_lookup.
  rewrite !E. repeat split.
Qed.

Lemma normalized_ascii_name_is_fixed_witness :
  let w := always (ok (xp_table 100)) 0 in
  capitalize (lower "Attack") = "Attack"
  /\ get_stat_level init "Attack" w = get_stat_level init "aTTACK" w
  /\ get_stat_xp init "Attack" w = get_stat_xp init "aTTACK" w
  /\ get_stat_xp_gained init "Attack" w = get_stat_xp_gained init "aTTACK" w
  /\ forall fuel wait_time,
      wait_til_gained_xp fuel init "Attack" wait_time w
      = wait_til_gained_xp fuel init "aTTACK" wait_time w.
Proof.
  intros w.
  apply (normalized_ascii_name_is_fixed init "aTTACK" w). reflexivity.
Defined.

(** ** Waiting for xp: the ways out *)

Lemma next_stat_others (field name : string) (records : list JSON) :
  Forall (other_stat name) records ->
  next_stat field name records = Raise StopIteration.
Proof.
  intros H. apply next_stat_absent. now apply Forall_forall.
Qed.

(** X9. When the starting xp is not to be had, for a fault of the
    fetch or for a table without the stat (under the name as the wait
    and then [get_stat_xp] normalize it), [wait_til_gained_xp] prints
    "Failed to get starting xp." after the line of the lookup and
    returns [None]; it has sent the one request and has not read the
    clock, whatever the fuel and the [wait_time]. *)
Theorem wait_without_starting_xp (fuel : nat) (self : Socket)
  (stat_name : string) (wait_time : Z) (w : World) :
  let name := capitalize (lower (capitalize (lower stat_name))) in
  let ep := stats_endpoint self in
  let gave_up line :=
    Some (@Ret (option Z) None,
          add_line "Failed to get starting xp."
            (add_line line (add_request (url_of self ep) w))) in
  (forall msg,
      fault_of (next_outcome self ep w) = Some msg ->
      wait_til_gained_xp fuel self stat_name wait_time w
      = gave_up (get_error msg ep))
  /\ (forall table,
      next_outcome self ep w = ok (JList table) ->
      Forall (other_stat name) (tl table) ->
      wait_til_gained_xp fuel self stat_name wait_time w
      = gave_up ("Invalid stat name: " ++ name)).
Proof.
  intros name ep gave_up. split.
  - intros msg Hm. unfold wait_til_gained_xp, get_stat_xp, stat_lookup.
    rewrite or_print_none_fetched. fold ep.
    rewrite (fetched_fault _ _ _ Hm). reflexivity.
  - intros table Hnet Ht. unfold wait_til_gained_xp, get_stat_xp.
    rewrite (stat_lookup_table _ _ _ _ _ Hnet). fold name.
    unfold first_stat; simpl.
    rewrite (next_stat_others _ _ _ Ht). reflexivity.
Qed.

Lemma wait_without_starting_xp_witness :
  let down := always (Fails ConnectionError) 0 in
  let up := always (ok (xp_table 100)) 0 in
  let url := "http://localhost:8081/stats" in
  wait_til_gained_xp 0 init "attack" 60 down
  = Some (Ret None,
          add_line "Failed to get starting xp."
            (add_line "Unable to reach socket endpoint: 'stats'"
               (add_request url down)))
  /\ wait_til_gained_xp 0 init "sailing" 60 up
     = Some (Ret None,
             add_line "Failed to get starting xp."
               (add_line "Invalid stat name: Sailing"
                  (add_request url up))).
Proof.
  intros down up url. split.
  - destruct (wait_without_starting_xp 0 init "attack" 60 down)
      as [H _].
    apply (H "Unable to reach socket"). reflexivity.
  - destruct (wait_without_starting_xp 0 init "sailing" 60 up)
      as [_ H].
    apply (H [stat_record "Overall" 41 (1154 + 100) 0;
              stat_record "Attack" 40 100 0;
              stat_record "Defence" 1 0 0]).
    + reflexivity.
    + repeat constructor; discriminate.
Defined.

Section PollingRuns.

Variables (self : Socket) (name : string) (starting_xp stop_time : Z).

Local Abbreviation ep := (stats_endpoint self).
Local Abbreviation url := (url_of self (stats_endpoint self)).
Local Abbreviation loop :=
  (fun n => poll_xp n self name starting_xp stop_time).

(** The ways a run of the loop ends, with the number of its polls.  A
    run that raises does so at its last poll: the fetch raised what is
    no fault, or the extraction raised on the table fetched. *)
Lemma poll_xp_finished : forall fuel v r v',
  loop fuel v = Some (r, v') ->
  exists polls : nat,
    sent v' = (sent v ++ repeat url polls)%list
    /\ net v' = net v /\ clock v' = clock v
    /\ (forall j, (j < polls)%nat -> clock v (reads v + j)%nat < stop_time)
    /\ ((r = Ret None /\ stdout v' = stdout v
         /\ reads v' = (reads v + polls + 1)%nat
         /\ stop_time <= clock v (reads v + polls)%nat)
        \/ ((1 <= polls)%nat /\ reads v' = (reads v + polls)%nat
            /\ ((r = Ret None
                 /\ exists msg,
                     stdout v' = (stdout v ++ [get_error msg ep])%list)
                \/ (exists xp, r = Ret (Some xp) /\ starting_xp < xp
                               /\ stdout v' = stdout v)
                \/ (exists e,
                      r = Raise e /\ stdout v' = stdout v
                      /\ let last :=
                           net v (List.length (sent v) + polls - 1)%nat url in
                         (fetched ep last = Raise e
                          /\ forall msg ep', e <> SocketError msg ep')
                         \/ (exists data,
                               fetched ep last = Ret data
                               /\ first_stat "xp" name data = Raise e))))).
Proof.
  induction fuel as [| fuel IH]; intros v r v' H; simpl in H;
    [discriminate |].
  destruct (Z.ltb_spec (clock v (reads v)) stop_time) as [Hlt | Hge].
  - assert (Hfirst : forall j, (j < 1)%nat ->
                       clock v (reads v + j)%nat < stop_time).
    { intros j Hj. assert (j = 0%nat) as -> by lia.
      now rewrite Nat.add_0_r. }
    rewrite do_get_fetched in H.
    change (next_outcome self ep (add_read v))
      with (net v (List.length (sent v)) url) in H.
    assert (Hlast : (List.length (sent v) + 1 - 1)%nat
                    = List.length (sent v)) by lia.
    destruct (fetched ep (net v (List.length (sent v)) url))
      as [data | e] eqn:F.
    + destruct (first_stat "xp" name data) as [final_xp | e] eqn:X.
      * destruct (Z.gtb_spec final_xp starting_xp) as [Hgt | Hle].
        -- injection H as <- <-. exists 1%nat. simpl.
           repeat split; trivial.
           right. repeat split; [lia | lia |].
           right. left. exists final_xp. repeat split; [lia].
        -- apply IH in H
             as (polls & Hs & Hn & Hc & Hbefore & Hend).
           exists (S polls). simpl in *.
           repeat split; trivial.
           ++ rewrite Hs, <- app_assoc. reflexivity.
           ++ intros j Hj. destruct j as [| j].
              ** now rewrite Nat.add_0_r.
              ** replace (reads v + S j)%nat with (S (reads v + j)) by lia.
                 apply Hbefore. lia.
           ++ replace (reads v + S polls)%nat with (S (reads v + polls))
                by lia.
              destruct Hend as [(Hr & Ho & Hreads & Hstop)
                               | (Hp & Hreads & Hcases)].
              ** left. repeat split; trivial; lia.
              ** right. split; [lia |]. split; [lia |].
                 rewrite length_app in Hcases. simpl in Hcases.
                 replace (List.length (sent v) + 1 + polls - 1)%nat
                   with (List.length (sent v) + S polls - 1)%nat
                   in Hcases by lia.
                 exact Hcases.
      * injection H as <- <-. exists 1%nat. simpl.
        repeat split; trivial.
        right. repeat split; [lia | lia |].
        right. right. exists e. split; [reflexivity |].
        split; [reflexivity |].
        rewrite Hlast, F. right. exists data. now split.
    + assert (Hraise : forall r0,
                r0 = @Raise (option Z) e ->
                (forall msg ep', e <> SocketError msg ep') ->
                exists polls : nat,
                  sent (add_request url (add_read v))
                  = (sent v ++ repeat url polls)%list
                  /\ net v = net v /\ clock v = clock v
                  /\ (forall j, (j < polls)%nat ->
                                clock v (reads v + j)%nat < stop_time)
                  /\ ((r0 = Ret None /\ stdout v = stdout v
                       /\ S (reads v) = (reads v + polls + 1)%nat
                       /\ stop_time <= clock v (reads v + polls)%nat)
                      \/ ((1 <= polls)%nat
                          /\ S (reads v) = (reads v + polls)%nat
                          /\ ((r0 = Ret None
                               /\ exists msg,
                                   stdout v
                                   = (stdout v ++ [get_error msg ep])%list)
                              \/ (exists xp, r0 = Ret (Some xp)
                                             /\ starting_xp < xp
                                             /\ stdout v = stdout v)
                              \/ (exists e0,
                                    r0 = Raise e0 /\ stdout v = stdout v
                                    /\ let last :=
                                         net v (List.length (sent v)
                                                + polls - 1)%nat url in
                                       (fetched ep last = Raise e0
                                        /\ forall msg ep',
                                            e0 <> SocketError msg ep')
                                       \/ (exists data,
                                             fetched ep last = Ret data
                                             /\ first_stat "xp" name data
                                                = Raise e0)))))).
      { intros r0 -> Hne. exists 1%nat. simpl.
        repeat split; trivial.
        right. repeat split; [lia | lia |].
        right. right. exists e. split; [reflexivity |].
        split; [reflexivity |]. rewrite Hlast, F. left. now split. }
      destruct e; injection H as <- <-;
        try (apply Hraise; [reflexivity | discriminate]).
      exists 1%nat. simpl. repeat split; trivial.
      right. repeat split; [lia | lia |].
      left. split; [reflexivity |].
      exists error_message.
      apply fetched_Raise_fault in F as [_ ->]. reflexivity.
  - injection H as <- <-. exists 0%nat. simpl.
    rewrite app_nil_r. repeat split; trivial; try lia.
    left. rewrite !Nat.add_0_r. repeat split; trivial; lia.
Qed.

(** More fuel does not change a result. *)
Lemma poll_xp_more_fuel : forall fuel v res,
  loop fuel v = Some res -> loop (S fuel) v = Some res.
Proof.
  induction fuel as [| fuel IH]; intros v res H; [discriminate |].
  cbn [poll_xp] in H. cbn [poll_xp].
  destruct (time_time v) as [now w0].
  destruct (now <? stop_time); [| exact H].
  destruct (do_get self ep w0) as [[data | e] w1]; [| exact H].
  destruct (first_stat "xp" name data) as [final_xp | e]; [| exact H].
  destruct (final_xp >? starting_xp); [exact H |].
  now apply IH.
Qed.

Lemma poll_xp_fuel_le (fuel fuel' : nat) (v : World)
  (res : Result (option Z) * World) :
  (fuel <= fuel')%nat -> loop fuel v = Some res -> loop fuel' v = Some res.
Proof.
  induction 1 as [| m _ IH]; intros H; [exact H |].
  apply poll_xp_more_fuel. now apply IH.
Qed.

(** The loop returns by the turn at which the clock has reached the
    deadline. *)
Lemma poll_xp_returns : forall n v,
  stop_time <= clock v (reads v + n)%nat ->
  exists res, loop (S n) v = Some res.
Proof.
  induction n as [| n IH]; intros v Hn.
  - rewrite Nat.add_0_r in Hn. eexists.
    now apply poll_xp_timed_out.
  - cbn [poll_xp]. unfold time_time.
    destruct (clock v (reads v) <? stop_time); [| eexists; reflexivity].
    rewrite do_get_fetched.
    destruct (fetched ep (next_outcome self ep (add_read v)))
      as [data | e].
    + destruct (first_stat "xp" name data) as [final_xp | e];
        [| eexists; reflexivity].
      destruct (final_xp >? starting_xp); [eexists; reflexivity |].
      apply IH. simpl.
      replace (S (reads v + n)) with (reads v + S n)%nat by lia.
      exact Hn.
    + destruct e; eexists; reflexivity.
Qed.

End PollingRuns.

(** X10. A finished call of [wait_til_gained_xp] that had its starting
    xp has sent, after the request for it, some number of polls of the
    stats endpoint and nothing else, each one after a reading of the
    clock below the deadline.  It ended in one of four ways: timed
    out, on a reading at or past the deadline, with [None] and nothing
    printed; or after a poll -- failed, with [None] and the fault
    printed; succeeded, with an xp above the starting xp; or raising
    at its last poll, where either the fetch raised an exception that
    is no [SocketError] or the extraction raised on the table
    fetched. *)
Theorem wait_run_ends (fuel : nat) (self : Socket) (stat_name : string)
  (wait_time : Z) (w w1 w' : World) (starting_xp : Z)
  (r : Result (option Z)) :
  get_stat_xp self (capitalize (lower stat_name)) w
  = (Ret (Some starting_xp), w1) ->
  wait_til_gained_xp fuel self stat_name wait_time w = Some (r, w') ->
  let deadline := clock w1 (reads w1) + wait_time in
  let reading j := clock w1 (S (reads w1) + j)%nat in
  let ep := stats_endpoint self in
  exists polls : nat,
    sent w' = (sent w1 ++ repeat (url_of self ep) polls)%list
    /\ (forall j, (j < polls)%nat -> reading j < deadline)
    /\ ((r = Ret None /\ stdout w' = stdout w1
         /\ reads w' = (reads w1 + polls + 2)%nat
         /\ deadline <= reading polls)
        \/ ((1 <= polls)%nat /\ reads w' = (reads w1 + polls + 1)%nat
            /\ ((r = Ret None
                 /\ exists msg,
                     stdout w' = (stdout w1 ++ [get_error msg ep])%list)
                \/ (exists xp, r = Ret (Some xp) /\ starting_xp < xp
                               /\ stdout w' = stdout w1)
                \/ (exists e,
                      r = Raise e /\ stdout w' = stdout w1
                      /\ let last :=
                           net w1 (List.length (sent w1) + polls - 1)%nat
                             (url_of self ep) in
                         (fetched ep last = Raise e
                          /\ forall msg ep', e <> SocketError msg ep')
                         \/ (exists data,
                               fetched ep last = Ret data
                               /\ first_stat "xp"
                                    (capitalize (lower stat_name)) data
                                  = Raise e))))).
Proof.
  intros Hstart Hrun deadline reading ep.
  rewrite (wait_enters_loop fuel self stat_name wait_time w w1 starting_xp
             Hstart) in Hrun.
  apply poll_xp_finished in Hrun
    as (polls & Hs & _ & _ & Hbefore & Hend).
  exists polls. simpl in *. split; [exact Hs |]. split; [exact Hbefore |].
  destruct Hend as [(Hr & Ho & Hreads & Hstop) | (Hp & Hreads & Hcases)].
  - left. repeat split; trivial. lia.
  - right. split; [exact Hp |]. split; [lia |]. exact Hcases.
Qed.

(** The starting xp is 100 and the first poll finds 100; the second is
    not answered within the timeout. *)
Lemma wait_run_ends_witness :
  let url := "http://localhost:8081/stats" in
  let w := scripted [ok (xp_table 100); ok (xp_table 100)]
             (Fails ReadTimeout) 0 in
  let w1 := add_request url w in
  let w' := add_request url (add_read (add_request url
              (add_read (add_read w1)))) in
  let r := @Raise (option Z) (RequestException ReadTimeout) in
  exists polls : nat,
    sent w' = (sent w1 ++ repeat url polls)%list
    /\ (forall j, (j < polls)%nat -> clock w1 (S (reads w1) + j)%nat < 0 + 10)
    /\ ((r = Ret None /\ stdout w' = stdout w1
         /\ reads w' = (reads w1 + polls + 2)%nat
         /\ 0 + 10 <= clock w1 (S (reads w1) + polls)%nat)
        \/ ((1 <= polls)%nat /\ reads w' = (reads w1 + polls + 1)%nat
            /\ ((r = Ret None
                 /\ exists msg,
                     stdout w' = (stdout w1 ++ [get_error msg "stats"])%list)
                \/ (exists xp, r = Ret (Some xp) /\ 100 < xp
                               /\ stdout w' = stdout w1)
                \/ (exists e,
                      r = Raise e /\ stdout w' = stdout w1
                      /\ let last :=
                           net w1 (List.length (sent w1) + polls - 1)%nat
                             url in
                         (fetched "stats" last = Raise e
                          /\ forall msg ep', e <> SocketError msg ep')
                         \/ (exists data,
                               fetched "stats" last = Ret data
                               /\ first_stat "xp" "Attack" data
                                  = Raise e))))).
Proof.
  intros url w w1 w' r.
  exact (wait_run_ends 5 init "attack" 10 w w1 w' 100 r eq_refl eq_refl).
Defined.

(** X11. A call of [wait_til_gained_xp] that had its starting xp
    returns once the clock reaches the deadline: if the reading number
    [n] after the deadline was set is at or past it, the loop takes at
    most [n + 1] turns, and more fuel gives the same result. *)
Theorem wait_returns (n : nat) (self : Socket) (stat_name : string)
  (wait_time : Z) (w w1 : World) (starting_xp : Z) :
  get_stat_xp self (capitalize (lower stat_name)) w
  = (Ret (Some starting_xp), w1) ->
  clock w1 (reads w1) + wait_time <= clock w1 (S (reads w1) + n)%nat ->
  exists res,
    forall fuel, (S n <= fuel)%nat ->
      wait_til_gained_xp fuel self stat_name wait_time w = Some res.
Proof.
  intros Hstart Hclock.
  destruct (poll_xp_returns self (capitalize (lower stat_name)) starting_xp
              (clock w1 (reads w1) + wait_time) n (add_read w1) Hclock)
    as [res Hres].
  exists res. intros fuel Hfuel.
  rewrite (wait_enters_loop fuel self stat_name wait_time w w1 starting_xp
             Hstart).
  exact (poll_xp_fuel_le self _ starting_xp _ (S n) fuel _ res Hfuel Hres).
Qed.

Lemma wait_returns_witness :
  let w := always (ok (xp_table 100)) 0 in
  exists res,
    forall fuel, (4 <= fuel)%nat ->
      wait_til_gained_xp fuel init "attack" 3 w = Some res.
Proof.
  intros w.
  apply (wait_returns 3 init "attack" 3 w
           (add_request "http://localhost:8081/stats" w) 100).
  - reflexivity.
  - simpl. lia.
Defined.

(** X12. Inside the loop the lookup of the polled xp is not guarded:
    when a poll is answered with a table that has no record of the
    stat, [StopIteration] reaches the caller of [wait_til_gained_xp],
    where [get_stat_xp] on the same answer prints the invalid name and
    returns [None]. *)
Theorem poll_of_vanished_stat (fuel : nat) (self : Socket)
  (stat_name : string) (starting_xp stop_time : Z) (v : World)
  (table : list JSON) :
  let name := capitalize (lower stat_name) in
  clock v (reads v) < stop_time ->
  next_outcome self (stats_endpoint self) v = ok (JList table) ->
  Forall (other_stat name) (tl table) ->
  poll_xp (S fuel) self name starting_xp stop_time v
  = Some (Raise StopIteration,
          add_request (url_of self (stats_endpoint self)) (add_read v))
  /\ get_stat_xp self stat_name v
     = (Ret None,
        add_line ("Invalid stat name: " ++ name)
          (add_request (url_of self (stats_endpoint self)) v)).
Proof.
  intros name Hlt Hnet Ht. split.
  - simpl. destruct (Z.ltb_spec (clock v (reads v)) stop_time); [| lia].
    rewrite do_get_fetched.
    change (next_outcome self (stats_endpoint self) (add_read v))
      with (next_outcome self (stats_endpoint self) v).
    rewrite Hnet, fetched_ok. unfold first_stat; simpl.
    now rewrite (next_stat_others _ _ _ Ht).
  - unfold get_stat_xp. rewrite (stat_lookup_table _ _ _ _ _ Hnet).
    fold name. unfold first_stat; simpl.
    now rewrite (next_stat_others _ _ _ Ht).
Qed.

(** The stat is there for the starting xp and gone at the first poll. *)
Lemma poll_of_vanished_stat_witness :
  let w := scripted [ok (xp_table 100)]
             (ok (JList [stat_record "Overall" 1 0 0])) 0 in
  option_map fst (wait_til_gained_xp 3 init "attack" 10 w)
  = Some (Raise StopIteration)
  /\ fst (get_stat_xp init "attack"
            (add_request "http://localhost:8081/stats" w))
     = Ret None.
Proof.
  intros w.
  pose proof (wait_enters_loop 3 init "attack" 10 w
                (add_request "http://localhost:8081/stats" w) 100 eq_refl)
    as Henter.
  destruct (poll_of_vanished_stat 2 init "attack" 100
              (clock (add_request "http://localhost:8081/stats" w)
                 (reads (add_request "http://localhost:8081/stats" w)) + 10)
              (add_read (add_request "http://localhost:8081/stats" w))
              [stat_record "Overall" 1 0 0])
    as [Hpoll _]; [simpl; lia | reflexivity | constructor |].
  destruct (poll_of_vanished_stat 0 init "attack" 100 10
              (add_request "http://localhost:8081/stats" w)
              [stat_record "Overall" 1 0 0])
    as [_ Hget]; [simpl; lia | reflexivity | constructor |].
  split.
  - rewrite Henter, Hpoll. reflexivity.
  - now rewrite Hget.
Defined.

(** ** Equipment and inventory: records that are not well formed *)

Lemma ids_of_all (items : list JSON) :
  Forall (fun i => slot_id i <> None) items ->
  exists l, ids_of items = Ret l /\ map Some l = ids items.
Proof.
  induction 1 as [| i items Hi _ (l & Hl & Hm)]; simpl.
  - now exists [].
  - destruct (slot_id i) as [v |] eqn:E; [| contradiction].
    rewrite (getitem_id _ _ E), Hl. simpl.
    exists (v :: l). simpl. now rewrite Hm.
Qed.

Lemma ids_of_missing (before after : list JSON) (d : list (string * JSON)) :
  Forall (fun i => slot_id i <> None) before ->
  assoc "id" d = None ->
  ids_of (before ++ JDict d :: after) = Raise (KeyError "id").
Proof.
  intros Hb Hd. induction Hb as [| i items Hi _ IH]; simpl.
  - now rewrite Hd.
  - destruct (slot_id i) as [v |] eqn:E; [| contradiction].
    now rewrite (getitem_id _ _ E), IH.
Qed.

(** X13. [get_player_equipment] returns the 'id' of every record of
    the answer, as sent and in the order sent, so as many ids as there
    are records; one record without an 'id' and the call raises
    [KeyError] with no list returned. *)
Theorem equipment_ids_verbatim (self : Socket) (w : World)
  (items : list JSON) :
  next_outcome self (equip_endpoint self) w = ok (JList items) ->
  let w1 := add_request (url_of self (equip_endpoint self)) w in
  (Forall (fun i => slot_id i <> None) items ->
   exists l,
     get_player_equipment self w = (Ret (Some l), w1)
     /\ map Some l = ids items
     /\ List.length l = List.length items)
  /\ (forall before d after,
      items = (before ++ JDict d :: after)%list ->
      Forall (fun i => slot_id i <> None) before ->
      assoc "id" d = None ->
      get_player_equipment self w = (Raise (KeyError "id"), w1)).
Proof.
  intros Hnet w1. unfold get_player_equipment.
  rewrite or_print_none_fetched, Hnet, fetched_ok. fold w1.
  unfold bind, lift, ret; simpl. split.
  - intros Hall. destruct (ids_of_all items Hall) as (l & Hl & Hm).
    exists l. rewrite Hl. repeat split; trivial.
    apply (f_equal (@List.length _)) in Hm.
    unfold ids in Hm. now rewrite !length_map in Hm.
  - intros before d after -> Hb Hd.
    now rewrite (ids_of_missing _ _ _ Hb Hd).
Qed.

Lemma equipment_ids_verbatim_witness :
  let worn := [slot 1163 1; slot (-1) 0; slot 1725 1; slot (-1) 0] in
  let w := always (ok (JList worn)) 0 in
  let broken := always (ok (JList [slot 1163 1; JDict []; slot 1725 1])) 0 in
  (exists l,
      get_player_equipment init w
      = (Ret (Some l), add_request "http://localhost:8081/equip" w)
      /\ map Some l = ids worn
      /\ List.length l = 4%nat)
  /\ get_player_equipment init broken
     = (Raise (KeyError "id"),
        add_request "http://localhost:8081/equip" broken).
Proof.
  intros worn w broken. split.
  - destruct (equipment_ids_verbatim init w worn eq_refl) as [H _].
    apply H. repeat constructor; discriminate.
  - destruct (equipment_ids_verbatim init broken
                [slot 1163 1; JDict []; slot 1725 1] eq_refl) as [_ H].
    apply (H [slot 1163 1] [] [slot 1725 1]).
    + reflexivity.
    + repeat constructor; discriminate.
    + reflexivity.
Defined.

Lemma any_id_first_hit (item_id : Z) (before after : list JSON) (s : JSON) :
  Forall (fun x => slot_id x <> None) before ->
  holds item_id s = true ->
  any_id item_id (before ++ s :: after) = Ret true.
Proof.
  intros Hb Hs. induction Hb as [| x l Hx _ IH]; simpl.
  - unfold holds in Hs. destruct (slot_id s) as [v |] eqn:E;
      [| discriminate].
    now rewrite (getitem_id _ _ E), Hs.
  - destruct (slot_id x) as [v |] eqn:E; [| contradiction].
    rewrite (getitem_id _ _ E). now destruct (eq_int v item_id).
Qed.

Lemma find_from_missing (item_id : Z) (before after : list JSON)
  (d : list (string * JSON)) :
  Forall is_slot before ->
  assoc "id" d = None ->
  forall start,
    find_from start item_id (before ++ JDict d :: after)
    = Raise (KeyError "id").
Proof.
  intros Hb Hd. induction Hb as [| x l [Hid Hq] _ IH]; intros start; simpl.
  - now rewrite Hd.
  - destruct (slot_id x) as [v |] eqn:E; [| contradiction].
    destruct (slot_quantity x) as [q |] eqn:Q; [| contradiction].
    rewrite (getitem_id _ _ E).
    destruct (eq_int v item_id); [| apply IH].
    now rewrite (getitem_quantity _ _ Q), IH.
Qed.

(** X14. The membership test stops at the first slot that holds the
    item, the search visits every slot.  On an inventory in which a
    record without an 'id' follows a slot that holds the item,
    [get_if_item_in_inv] returns [True] and [find_item_in_inv] raises
    [KeyError]. *)
Theorem membership_stops_search_does_not (self : Socket) (item_id : Z)
  (w : World) (before middle after : list JSON) (s : JSON)
  (d : list (string * JSON)) :
  next_outcome self (inv_endpoint self) w
  = ok (JList (before ++ s :: middle ++ JDict d :: after)) ->
  Forall is_slot before -> is_slot s -> Forall is_slot middle ->
  holds item_id s = true ->
  assoc "id" d = None ->
  fst (get_if_item_in_inv self item_id w) = Ret (Some true)
  /\ fst (find_item_in_inv self item_id w) = Raise (KeyError "id").
Proof.
  intros Hnet Hb Hs Hm Hh Hd.
  unfold get_if_item_in_inv, find_item_in_inv.
  rewrite !or_print_none_fetched, Hnet, fetched_ok.
  unfold bind, lift, ret; simpl. split.
  - rewrite any_id_first_hit; trivial.
    eapply Forall_impl; [| exact Hb]. now intros x [Hx _].
  - replace (before ++ s :: middle ++ JDict d :: after)%list
      with ((before ++ s :: middle) ++ JDict d :: after)%list
      by (now rewrite <- app_assoc).
    rewrite find_from_missing; trivial.
    apply Forall_app. split; [exact Hb | now constructor].
Qed.

Lemma membership_stops_search_does_not_witness :
  let w := always (ok (JList [slot 379 1; slot 995 30; JDict []])) 0 in
  fst (get_if_item_in_inv init 995 w) = Ret (Some true)
  /\ fst (find_item_in_inv init 995 w) = Raise (KeyError "id").
Proof.
  intros w.
  apply (membership_stops_search_does_not init 995 w
           [slot 379 1] [] [] (slot 995 30) []).
  - reflexivity.
  - repeat constructor; discriminate.
  - split; discriminate.
  - constructor.
  - reflexivity.
  - reflexivity.
Defined.

Lemma matching_slots_sorted (item_id : Z) (slots : list JSON) :
  forall start,
    StronglySorted lt
      (map fst (filter (fun p : nat * JSON => holds item_id (snd p))
                  (combine (seq start (List.length slots)) slots))).
Proof.
  induction slots as [| a l IH]; intros start; simpl; [constructor |].
  destruct (holds item_id a); simpl; [| apply IH].
  constructor; [apply IH |].
  apply Forall_forall. intros i Hi.
  apply in_map_iff in Hi as ([j x] & <- & Hin).
  apply filter_In in Hin as [Hin _].
  apply in_enumerate in Hin as [Hle _]. simpl. lia.
Qed.

(** X15. On an inventory response, [find_item_in_inv] lists each slot
    that holds the item once, by increasing slot index: a pair (i, q)
    is in the list exactly when slot i holds the item in quantity q,
    and the indices increase along the list. *)
Theorem find_lists_holding_slots_in_order (self : Socket) (item_id : Z)
  (w : World) (slots : list JSON) :
  next_outcome self (inv_endpoint self) w = ok (JList slots) ->
  Forall is_slot slots ->
  exists l,
    fst (find_item_in_inv self item_id w) = Ret (Some l)
    /\ StronglySorted lt (map fst l)
    /\ (forall i q,
          In (i, q) l <->
          exists s, nth_error slots i = Some s /\ holds item_id s = true
                    /\ slot_quantity s = Some q)
    /\ (List.length l <= List.length slots)%nat.
Proof.
  intros Hnet Hs. exists (matching_slots item_id slots).
  rewrite (find_item_in_inv_slots _ _ _ _ Hnet Hs).
  split; [reflexivity |]. split; [| split].
  - unfold matching_slots. rewrite map_map. simpl.
    apply matching_slots_sorted.
  - intros i q. now apply matching_slots_In.
  - unfold matching_slots. rewrite length_map.
    etransitivity; [apply filter_length_le |].
    rewrite length_combine, length_seq. lia.
Qed.

Lemma find_lists_holding_slots_in_order_witness :
  let inv := [slot 995 30; slot 379 1; slot 995 12] in
  let w := always (ok (JList inv)) 0 in
  exists l,
    fst (find_item_in_inv init 995 w) = Ret (Some l)
    /\ StronglySorted lt (map fst l)
    /\ (forall i q,
          In (i, q) l <->
          exists s, nth_error inv i = Some s /\ holds 995 s = true
                    /\ slot_quantity s = Some q)
    /\ (List.length l <= 3)%nat.
Proof.
  intros inv w.
  apply (find_lists_holding_slots_in_order init 995 w inv).
  - reflexivity.
  - repeat constructor; discriminate.
Defined.

(** ** The diagnostic operation: exceptions that are not faults *)

Lemma test_each_escape (self : Socket) (eps : list string) :
  forall w i e,
    (i < List.length eps)%nat ->
    (forall j, (j < i)%nat ->
               exists body, outcome_at self eps w j = ok body) ->
    fetched (nth i eps "") (outcome_at self eps w i) = Raise e ->
    faultless (@Raise JSON e) ->
    test_each self (map AStr eps) w
    = (Raise e, add_requests (firstn (S i) (map (url_of self) eps)) w).
Proof.
  induction eps as [| ep eps IH]; intros w i e Hi Hok Hf He; simpl in Hi.
  - lia.
  - cbn [map test_each format_attr]. rewrite do_get_fetched.
    destruct i as [| i].
    + rewrite outcome_at_0 in Hf. cbn [nth] in Hf. rewrite Hf.
      destruct e; try reflexivity. contradiction.
    + destruct (Hok O) as [body Hb]; [lia |].
      rewrite outcome_at_0 in Hb. rewrite Hb, fetched_ok.
      rewrite (IH _ i e).
      * cbn [firstn]. now rewrite add_requests_cons.
      * lia.
      * intros j Hj. rewrite outcome_at_cons. apply Hok. lia.
      * rewrite outcome_at_cons. exact Hf.
      * exact He.
Qed.

(** X16. [__test_endpoints] answers neither [True] nor [False] when a
    fetch meets an exception that is not a fault: after the endpoints
    ahead of it answered, an exception of [requests.get] outside the
    [ConnectionError] family, or a 200 answer whose body is not JSON,
    ends the check with that exception raised, nothing printed and the
    later endpoints not fetched. *)
Theorem test_endpoints_escape (self : Socket) (w : World) (i : nat) :
  let eps := endpoints self in
  let stopped := add_requests (firstn (S i) (map (url_of self) eps)) w in
  (i < 4)%nat ->
  (forall j, (j < i)%nat ->
             exists body, outcome_at self eps w j = ok body) ->
  (forall x,
      is_ConnectionError x = false ->
      outcome_at self eps w i = Fails x ->
      test_endpoints self w = (Raise (RequestException x), stopped))
  /\ (outcome_at self eps w i = Responds (mkResponse 200 None) ->
      test_endpoints self w = (Raise JSONDecodeError, stopped)).
Proof.
  intros eps stopped Hi Hok. unfold test_endpoints.
  rewrite slice_is_endpoints. fold eps. split.
  - intros x Hx Ho.
    apply (test_each_escape self eps w i);
      [exact Hi | exact Hok | | exact I].
    rewrite Ho. unfold fetched, fault_of. now rewrite Hx.
  - intros Ho.
    apply (test_each_escape self eps w i);
      [exact Hi | exact Hok | | exact I].
    now rewrite Ho.
Qed.

Lemma test_endpoints_escape_witness :
  let w := scripted [ok JNull; ok JNull; Fails ReadTimeout] (ok JNull) 0 in
  test_endpoints init w
  = (Raise (RequestException ReadTimeout),
     add_requests ["http://localhost:8081/inv";
                   "http://localhost:8081/stats";
                   "http://localhost:8081/equip"] w).
Proof.
  intros w.
  destruct (test_endpoints_escape init w 2) as [H _].
  - lia.
  - intros j Hj. exists JNull.
    destruct j as [| [| j]]; [reflexivity | reflexivity | lia].
  - apply (H ReadTimeout); reflexivity.
Defined.

(** ** World point *)

Lemma int_fields_assoc (fields : list (string * JSON)) (k : string) :
  int_fields fields ->
  assoc k fields = None \/ exists n, assoc k fields = Some (JInt n).
Proof.
  induction 1 as [| [k' v] l [n Hn] _ IH]; simpl; [now left |].
  destruct (String.eqb k k'); [| exact IH].
  right. exists n. simpl in Hn. now subst.
Qed.

Lemma int_at_fields (data : JSON) (d fields : list (string * JSON))
  (outer k : string) :
  data = JDict d ->
  assoc outer d = Some (JDict fields) ->
  int_fields fields ->
  int_at data outer k
  = match assoc k fields with
    | Some (JInt n) => Ret n
    | _ => Raise (KeyError k)
    end.
Proof.
  intros -> Ho Hf. unfold int_at. simpl. rewrite Ho. simpl.
  destruct (int_fields_assoc fields k Hf) as [-> | [n ->]]; reflexivity.
Qed.

(** X17. On a snapshot whose 'worldPoint' holds integers,
    [get_player_position] returns (x, y, plane) and
    [get_player_region_data] (regionX, regionY, regionID) when the
    three are there; when one is not, the call raises the [KeyError]
    of the first of the three that is missing, and returns no part of
    the triple. *)
Theorem world_point_triples (self : Socket) (w : World)
  (d fields : list (string * JSON))
  (get : Socket -> M (option (Z * Z * Z))) (k1 k2 k3 : string) :
  In (get, (k1, k2, k3))
     [(get_player_position, ("x", "y", "plane"));
      (get_player_region_data, ("regionX", "regionY", "regionID"))] ->
  next_outcome self (events_endpoint self) w = ok (JDict d) ->
  assoc "worldPoint" d = Some (JDict fields) ->
  int_fields fields ->
  let w1 := add_request (url_of self (events_endpoint self)) w in
  (exists a b c,
      assoc k1 fields = Some (JInt a) /\ assoc k2 fields = Some (JInt b)
      /\ assoc k3 fields = Some (JInt c)
      /\ get self w = (Ret (Some (a, b, c)), w1))
  \/ (exists k,
       first_missing [k1; k2; k3] fields = Some k
       /\ get self w = (Raise (KeyError k), w1)).
Proof.
  intros Hin Hnet Hwp Hf w1.
  assert (H : forall k,
             int_at (JDict d) "worldPoint" k
             = match assoc k fields with
               | Some (JInt n) => Ret n
               | _ => Raise (KeyError k)
               end)
    by (intros k; now apply (int_at_fields _ d fields)).
  assert (Hget : get self w
                 = (match int_at (JDict d) "worldPoint" k1 with
                    | Raise e => Raise e
                    | Ret a =>
                        match int_at (JDict d) "worldPoint" k2 with
                        | Raise e => Raise e
                        | Ret b =>
                            match int_at (JDict d) "worldPoint" k3 with
                            | Raise e => Raise e
                            | Ret c => Ret (Some (a, b, c))
                            end
                        end
                    end, w1)).
  { simpl in Hin. destruct Hin as [[= <- <- <- <-] | [[= <- <- <- <-] | []]].
    - unfold get_player_position.
      rewrite or_print_none_fetched, Hnet, fetched_ok. fold w1.
      unfold bind, lift, ret.
      destruct (int_at (JDict d) "worldPoint" "x"); [| reflexivity].
      destruct (int_at (JDict d) "worldPoint" "y"); [| reflexivity].
      destruct (int_at (JDict d) "worldPoint" "plane"); reflexivity.
    - unfold get_player_region_data.
      rewrite or_print_none_fetched, Hnet, fetched_ok. fold w1.
      unfold bind, lift, ret.
      destruct (int_at (JDict d) "worldPoint" "regionX"); [| reflexivity].
      destruct (int_at (JDict d) "worldPoint" "regionY"); [| reflexivity].
      destruct (int_at (JDict d) "worldPoint" "regionID"); reflexivity. }
  rewrite Hget, !H. unfold first_missing. simpl.
  destruct (int_fields_assoc fields k1 Hf) as [-> | [a ->]];
    [right; eexists; split; reflexivity |].
  destruct (int_fields_assoc fields k2 Hf) as [-> | [b ->]];
    [right; eexists; split; reflexivity |].
  destruct (int_fields_assoc fields k3 Hf) as [-> | [c ->]];
    [right; eexists; split; reflexivity |].
  left. exists a, b, c. repeat split.
Qed.

Lemma world_point_triples_witness :
  let point := [("x", JInt 3221); ("y", JInt 3218);
                ("regionX", JInt 21); ("regionY", JInt 18);
                ("regionID", JInt 12850)] in
  let w := always (ok (JDict [("worldPoint", JDict point)])) 0 in
  let w1 := add_request "http://localhost:8081/events" w in
  get_player_position init w = (Raise (KeyError "plane"), w1)
  /\ get_player_region_data init w = (Ret (Some (21, 18, 12850)), w1).
Proof.
  intros point w w1. split.
  - destruct (world_point_triples init w [("worldPoint", JDict point)] point
                get_player_position "x" "y" "plane")
      as [(a & b & c & _ & _ & Hc & _) | (k & Hk & Hget)];
      [now left | reflexivity | reflexivity
      | repeat constructor; eexists; reflexivity | discriminate |].
    injection Hk as <-. exact Hget.
  - destruct (world_point_triples init w [("worldPoint", JDict point)] point
                get_player_region_data "regionX" "regionY" "regionID")
      as [(a & b & c & Ha & Hb & Hc & Hget) | (k & Hk & _)];
      [right; now left | reflexivity | reflexivity
      | repeat constructor; eexists; reflexivity | | discriminate].
    injection Ha as <-. injection Hb as <-. injection Hc as <-.
    exact Hget.
Defined.

(** ** Fault messages *)

Lemma str_of_int_inj (a b : Z) : str_of_int a = str_of_int b -> a = b.
Proof.
  intros H. apply (f_equal int_of_str) in H.
  rewrite !int_of_str_str_of_int in H. now injection H.
Qed.

(** X18. The message of a fault tells its cause: two fetches that
    fault with the same message both met a connection failure, or both
    met a response, of the same status. *)
Theorem fault_message_tells_cause (o1 o2 : Outcome) (msg : string) :
  fault_of o1 = Some msg -> fault_of o2 = Some msg -> cause o1 = cause o2.
Proof.
  unfold fault_of, msg_unreachable, msg_not_ready, msg_bad_status.
  destruct o1 as [e1 | r1], o2 as [e2 | r2]; simpl.
  - reflexivity.
  - destruct (is_ConnectionError e1); [| discriminate].
    intros [= <-].
    destruct (status_code r2 =? 200); [discriminate |].
    destruct (status_code r2 =? 204); discriminate.
  - destruct (is_ConnectionError e2); [| discriminate].
    intros H [= <-]. revert H.
    destruct (status_code r1 =? 200); [discriminate |].
    destruct (status_code r1 =? 204); discriminate.
  - destruct (Z.eqb_spec (status_code r1) 200) as [| _]; [discriminate |].
    destruct (Z.eqb_spec (status_code r2) 200) as [| _]; [discriminate |].
    destruct (Z.eqb_spec (status_code r1) 204) as [E1 | _];
      destruct (Z.eqb_spec (status_code r2) 204) as [E2 | _];
      intros [= <-]; try discriminate.
    + now rewrite E1, E2.
    + intros [= H]. now rewrite (str_of_int_inj _ _ H).
Qed.

Lemma fault_message_tells_cause_witness :
  cause (Responds (mkResponse 503 None))
  = cause (Responds (mkResponse 503 (Some JNull))).
Proof.
  apply (fault_message_tells_cause _ _
           "Unable to reach socket, status code: 503"); reflexivity.
Defined.

(** ** Read timeouts *)

(** C3, at a request that is not answered within the timeout: every
    accessor of the catalog raises the [ReadTimeout] of [requests.get]
    to its caller, with nothing printed and no [None] returned, for
    [__do_get] has not made a [SocketError] of it. *)
Theorem accessors_raise_read_timeout (fuel : nat) (a : Accessor) :
  let w := always (Fails ReadTimeout) 0 in
  call fuel init a w
  = Some (Raise (RequestException ReadTimeout),
          add_request (url_of init (endpoint_of init a)) w)
  /\ stdout (add_request (url_of init (endpoint_of init a)) w) = [].
Proof. destruct a; split; reflexivity. Qed.
